(** * Weather tracker (src/main.py): a shallow embedding and its properties

    The development follows the FastAPI application of [src/main.py]:
    the ORM rows ([User], [City], [DefaultCity]), the weather fetch
    ([fetch_weather]), the request handlers, and the concurrent refresh
    ([update_city] under [asyncio.gather]).

    Conventions.
    - A Python [int] is a [Z]; a Python [float] is a primitive [float].
    - A naive [datetime] is the number of microseconds since the epoch, a
      [timedelta] a number of microseconds: both are exact in Python, so
      [now - city.updated_at > timedelta(minutes=15)] is integer arithmetic.
    - A value decoded from JSON is a [pyval]; [PNone] is Python's [None].
      [city.temperature] holds the value that was assigned to it.
    - A call that may raise returns an [outcome].
    - A table is the list of its rows in insertion order; a query filters
      it, [first()] takes the head. *)

From Stdlib Require Import ZArith String List Lia PrimFloat SpecFloat FloatOps.
From stdpp Require Import base option list relations.

Local Open Scope string_scope.
Local Open Scope list_scope.
Local Open Scope Z_scope.

(** ** Python values and exceptions *)

#[local] Set Warnings "-register-all".

Inductive pyval : Type :=
| PNone
| PBool (b : bool)
| PInt (z : Z)
| PFloat (f : float)
| PStr (s : string)
| PList (l : list pyval)
| PDict (d : list (string * pyval)).

(** The exception classes the modelled code can meet.  All of them derive
    from [Exception]; cancellation of a request is outside the model. *)
Inductive exn : Type :=
| AttributeError
| ClientError
| TimeoutError
| ContentTypeError
| JSONDecodeError
| OverflowError
| StatementError
| IntegrityError.

Inductive outcome (A : Type) : Type :=
| Returns (a : A)
| Raises (e : exn).
Arguments Returns {A} a.
Arguments Raises {A} e.

Definition obind {A B} (m : outcome A) (k : A -> outcome B) : outcome B :=
  match m with
  | Returns a => k a
  | Raises e => Raises e
  end.

Notation "x <~ m ; k" := (obind m (fun x => k))
  (at level 20, m at level 100, k at level 200, only parsing).

(** [try: body except Exception: handler]. *)
Definition is_Exception (e : exn) : bool := true.

Definition try_except_Exception {A} (body : outcome A) (handler : outcome A)
  : outcome A :=
  match body with
  | Returns a => Returns a
  | Raises e => if is_Exception e then handler else Raises e
  end.

(** [d.get(key, default)] on a dict kept as an association list. *)
Fixpoint dict_get (d : list (string * pyval)) (key : string) (default : pyval)
  : pyval :=
  match d with
  | [] => default
  | (k, v) :: d' => if String.eqb k key then v else dict_get d' key default
  end.

(** [v.get(key, default)]: only a dict has the method. *)
Definition py_get (v : pyval) (key : string) (default : pyval)
  : outcome pyval :=
  match v with
  | PDict d => Returns (dict_get d key default)
  | _ => Raises AttributeError
  end.

(** ** Time *)

Definition datetime := Z.
Definition timedelta := Z.

Definition timedelta_minutes (minutes : Z) : timedelta :=
  minutes * 60 * 1000000.

(** ** Rows *)

Module User.
Record t := mk {
  id : Z;
  username : string;
  password_hash : string;
  is_active : bool
}.
End User.

Module City.
Record t := mk {
  id : Z;
  name : string;
  latitude : float;
  longitude : float;
  temperature : pyval;
  updated_at : option datetime;
  user_id : Z
}.
End City.

Module DefaultCity.
Record t := mk {
  id : Z;
  name : string;
  latitude : float;
  longitude : float
}.
End DefaultCity.

(** The three tables of [cities.db], rows in insertion order. *)
Record Db := mkDb {
  users : list User.t;
  cities : list City.t;
  default_cities : list DefaultCity.t
}.

Definition empty_db : Db := mkDb [] [] [].

Definition set_cities (db : Db) (rows : list City.t) : Db :=
  mkDb (users db) rows (default_cities db).

(** An [INTEGER PRIMARY KEY] left unset on insert: one more than the
    largest key in the table. *)
Definition next_id (ids : list Z) : Z := 1 + foldr Z.max 0 ids.

(** [db.add(City(name=..., latitude=..., longitude=..., user_id=...))]:
    temperature and updated_at are left unset.  The coordinates are kept as
    given, which is what the table holds unless one is a NaN or a negative
    zero (see [sqlite_REAL]). *)
Definition add_City (rows : list City.t) (name : string)
    (latitude longitude : float) (user_id : Z) : list City.t :=
  rows ++ [City.mk (next_id (map City.id rows)) name latitude longitude
                   PNone None user_id].

(** ** The weather provider *)

(** What [session.get] and [response.json()] give for one request. *)
Inductive http_result : Type :=
| Transport (e : exn)
| Response (status : Z) (json : outcome pyval).

(** An [aiohttp.ClientSession], seen from the one request the program makes:
    the forecast for a coordinate pair. *)
Definition ClientSession := float -> float -> http_result.

Definition fetch_weather_try (r : http_result) : outcome pyval :=
  match r with
  | Transport e => Raises e
  | Response status json =>
      if negb (status =? 200) then Returns PNone
      else
        data <~ json;
        current_weather <~ py_get data "current_weather" (PDict []);
        py_get current_weather "temperature" PNone
  end.

Definition fetch_weather (session : ClientSession) (latitude longitude : float)
  : outcome pyval :=
  try_except_Exception (fetch_weather_try (session latitude longitude))
                       (Returns PNone).

(** ** Refresh of one city *)

(** One [fetch_weather] invocation, tagged with the id of the city whose
    [update_city] coroutine made it. *)
Record fetch_call := mkCall {
  call_city : Z;
  call_latitude : float;
  call_longitude : float
}.

Definition call_of (city : City.t) : fetch_call :=
  mkCall (City.id city) (City.latitude city) (City.longitude city).

(** [not city.updated_at or now - city.updated_at > timedelta(minutes=15)];
    a [datetime] object is always truthy. *)
Definition refresh_due (now : datetime) (city : City.t) : bool :=
  match City.updated_at city with
  | None => true
  | Some t => timedelta_minutes 15 <? now - t
  end.

(** [city.temperature = value; city.updated_at = now]. *)
Definition store_reading (city : City.t) (value : pyval) (now : datetime)
  : City.t :=
  City.mk (City.id city) (City.name city) (City.latitude city)
          (City.longitude city) value (Some now) (City.user_id city).

(** The coroutine [update_city], run to completion; the second component
    lists the network calls it made. *)
Definition update_city (now : datetime) (session : ClientSession)
    (city : City.t) : outcome (City.t * list fetch_call) :=
  if refresh_due now city then
    value <~ fetch_weather session (City.latitude city) (City.longitude city);
    Returns (store_reading city value now, [call_of city])
  else Returns (city, []).

(** [asyncio.gather] of the coroutines, run one after the other. *)
Fixpoint gather (now : datetime) (session : ClientSession)
    (cities : list City.t) : outcome (list City.t * list fetch_call) :=
  match cities with
  | [] => Returns ([], [])
  | city :: rest =>
      r <~ update_city now session city;
      rs <~ gather now session rest;
      Returns (r.1 :: rs.1, r.2 ++ rs.2)
  end.

(** ** Request handlers *)

Inductive response : Type :=
| RedirectResponse (url : string) (status_code : Z)
| TemplateResponse (template : string).

(** [user_id] is the cookie, already converted to an [int] by the framework;
    [not user_id] also holds for the integer [0].  This is the lookup for
    an id that the driver can bind; [get_current_user_sqlite] adds the
    binding. *)
Definition get_current_user (user_id : option Z) (db : Db) : option User.t :=
  match user_id with
  | None => None
  | Some uid =>
      if uid =? 0 then None
      else head (List.filter (fun u => User.id u =? uid) (users db))
  end.

(** [user.id], where [user] may be [None]. *)
Definition user_dot_id (user : option User.t) : outcome Z :=
  match user with
  | Some u => Returns (User.id u)
  | None => Raises AttributeError
  end.

(** Rendering is outside the model: a page is its template's name. *)
Definition read_root (db : Db) (user : option User.t) : outcome response :=
  match user with
  | None => Returns (RedirectResponse "/login" 303)
  | Some u => Returns (TemplateResponse "index.html")
  end.

Definition add_city (name : string) (latitude longitude : float)
    (db : Db) (user : option User.t) : outcome (response * Db) :=
  uid <~ user_dot_id user;
  let existing :=
    head (List.filter
            (fun c => String.eqb (City.name c) name && (City.user_id c =? uid))
            (cities db)) in
  match existing with
  | Some _ => Returns (RedirectResponse "/" 303, db)
  | None =>
      Returns (RedirectResponse "/" 303,
               set_cities db (add_City (cities db) name latitude longitude uid))
  end.

(** For a [city_id] that the driver can bind; [remove_city_sqlite] adds
    the binding. *)
Definition remove_city (city_id : Z) (db : Db) (user : option User.t)
  : outcome (response * Db) :=
  uid <~ user_dot_id user;
  let city :=
    head (List.filter
            (fun c => (City.id c =? city_id) && (City.user_id c =? uid))
            (cities db)) in
  match city with
  | Some c =>
      Returns (RedirectResponse "/" 303,
               set_cities db
                 (List.filter (fun r => negb (City.id r =? City.id c))
                              (cities db)))
  | None => Returns (RedirectResponse "/" 303, db)
  end.

(** The loop that gives a user one city per default city. *)
Definition add_defaults (rows : list City.t) (defaults : list DefaultCity.t)
    (uid : Z) : list City.t :=
  fold_left
    (fun acc default =>
       add_City acc (DefaultCity.name default) (DefaultCity.latitude default)
                (DefaultCity.longitude default) uid)
    defaults rows.

Definition reset_cities (db : Db) (user : option User.t)
  : outcome (response * Db) :=
  uid <~ user_dot_id user;
  let kept := List.filter (fun c => negb (City.user_id c =? uid)) (cities db) in
  Returns (RedirectResponse "/" 303,
           set_cities db (add_defaults kept (default_cities db) uid)).

(** [db.commit()] after the objects of a query were modified: each row is
    written back under its primary key, with the values the objects hold;
    [commit_cities_sqlite] adds what the [Float] column does to the
    temperature. *)
Definition commit_cities (objects rows : list City.t) : list City.t :=
  map (fun row =>
         match List.find (fun o => City.id o =? City.id row) objects with
         | Some o => o
         | None => row
         end) rows.

(** [now] is what the one call [datetime.utcnow()] returned. *)
Definition update_weather (now : datetime) (session : ClientSession)
    (db : Db) (user : option User.t)
  : outcome (response * Db * list fetch_call) :=
  uid <~ user_dot_id user;
  let cities_ := List.filter (fun c => City.user_id c =? uid) (cities db) in
  r <~ gather now session cities_;
  Returns (RedirectResponse "/" 303,
           set_cities db (commit_cities r.1 (cities db)), r.2).

(** The rows of [cities.csv] are given parsed.  The unique constraint on
    the name is added by [populate_default_cities_sqlite]. *)
Definition populate_default_cities (rows : list (string * float * float))
    (db : Db) : Db :=
  match default_cities db with
  | _ :: _ => db
  | [] =>
      mkDb (users db) (cities db)
           (fold_left
              (fun acc row =>
                 acc ++ [DefaultCity.mk (next_id (map DefaultCity.id acc))
                                        row.1.1 row.1.2 row.2])
              rows [])
  end.

(** [hash_password] and [verify_password] wrap the bcrypt library and are
    parameters here. *)
Definition register (hash_password : string -> string)
    (username password : string) (db : Db) : response * Db :=
  match head (List.filter (fun u => String.eqb (User.username u) username)
                          (users db)) with
  | Some _ => (TemplateResponse "register.html", db)
  | None =>
      (RedirectResponse "/login" 303,
       mkDb (users db ++ [User.mk (next_id (map User.id (users db))) username
                                  (hash_password password) true])
            (cities db) (default_cities db))
  end.

(** The cookie set on the redirect is not part of [response]. *)
Definition login (verify_password : string -> string -> bool)
    (username password : string) (db : Db) : response * Db :=
  match head (List.filter (fun u => String.eqb (User.username u) username)
                          (users db)) with
  | None => (TemplateResponse "login.html", db)
  | Some user =>
      if negb (verify_password password (User.password_hash user))
      then (TemplateResponse "login.html", db)
      else
        match head (List.filter (fun c => City.user_id c =? User.id user)
                                (cities db)) with
        | Some _ => (RedirectResponse "/" 303, db)
        | None =>
            (RedirectResponse "/" 303,
             set_cities db
               (add_defaults (cities db) (default_cities db) (User.id user)))
        end
  end.

(** One request that changed (or kept) the database.  A handler that raises
    never commits, so it takes no step. *)
Inductive db_step : Db -> Db -> Prop :=
| step_add_city cookie name latitude longitude db r db' :
    add_city name latitude longitude db (get_current_user cookie db)
      = Returns (r, db') ->
    db_step db db'
| step_remove_city cookie city_id db r db' :
    remove_city city_id db (get_current_user cookie db) = Returns (r, db') ->
    db_step db db'
| step_reset_cities cookie db r db' :
    reset_cities db (get_current_user cookie db) = Returns (r, db') ->
    db_step db db'
| step_update_weather cookie now session db r db' calls :
    update_weather now session db (get_current_user cookie db)
      = Returns (r, db', calls) ->
    db_step db db'
| step_populate rows db :
    db_step db (populate_default_cities rows db)
| step_register hash_password username password db :
    db_step db (register hash_password username password db).2
| step_login verify_password username password db :
    db_step db (login verify_password username password db).2.

Definition reachable (db : Db) : Prop := rtc db_step empty_db db.

(** ** The event loop under [asyncio.gather]

    [gather] starts one task per city.  A task runs until its [await] of
    the network, and is resumed when the response is there; between two
    such moments any other task may run, and the wall clock moves on.  The
    [City] objects of the query are shared by all tasks: task [i] holds a
    reference to [objects !! i]. *)

Inductive task : Type :=
| Pending
| Awaiting (latitude longitude : float)
| Finished
| Failed (e : exn).

Record loop_state := mkLoop {
  clock : datetime;
  objects : list City.t;
  tasks : list task;
  calls : list fetch_call
}.

Inductive loop_step (now : datetime) (session : ClientSession)
  : loop_state -> loop_state -> Prop :=
| task_skips s i city time :
    tasks s !! i = Some Pending ->
    objects s !! i = Some city ->
    refresh_due now city = false ->
    clock s <= time ->
    loop_step now session s
      (mkLoop time (objects s) (<[i:=Finished]> (tasks s)) (calls s))
| task_calls s i city time :
    tasks s !! i = Some Pending ->
    objects s !! i = Some city ->
    refresh_due now city = true ->
    clock s <= time ->
    loop_step now session s
      (mkLoop time (objects s)
              (<[i:=Awaiting (City.latitude city) (City.longitude city)]>
                 (tasks s))
              (calls s ++ [call_of city]))
| task_resumes s i latitude longitude value city time :
    tasks s !! i = Some (Awaiting latitude longitude) ->
    fetch_weather session latitude longitude = Returns value ->
    objects s !! i = Some city ->
    clock s <= time ->
    loop_step now session s
      (mkLoop time (<[i:=store_reading city value now]> (objects s))
              (<[i:=Finished]> (tasks s)) (calls s))
| task_raises s i latitude longitude e time :
    tasks s !! i = Some (Awaiting latitude longitude) ->
    fetch_weather session latitude longitude = Raises e ->
    clock s <= time ->
    loop_step now session s
      (mkLoop time (objects s) (<[i:=Failed e]> (tasks s)) (calls s)).

(** The state right after [now = datetime.utcnow()]. *)
Definition loop_start (now : datetime) (cities : list City.t) : loop_state :=
  mkLoop now cities (replicate (length cities) Pending) [].

Definition loop_run (now : datetime) (session : ClientSession)
    (cities : list City.t) (s : loop_state) : Prop :=
  rtc (loop_step now session) (loop_start now cities) s.

(** [await asyncio.gather(...)] returns once every task has finished. *)
Definition gather_done (s : loop_state) : Prop :=
  Forall (fun t => t = Finished) (tasks s).

(** ** Vocabulary of the statements *)

(** What [fetch_weather] leaves in [city.temperature]. *)
Definition fetched (session : ClientSession) (latitude longitude : float)
  : pyval :=
  match fetch_weather_try (session latitude longitude) with
  | Returns value => value
  | Raises _ => PNone
  end.

(** What [update_city] leaves of a city. *)
Definition refreshed (now : datetime) (session : ClientSession)
    (city : City.t) : City.t :=
  if refresh_due now city
  then store_reading city
         (fetched session (City.latitude city) (City.longitude city)) now
  else city.

(** [key in d]. *)
Definition dict_has (d : list (string * pyval)) (key : string) : bool :=
  existsb (fun kv => String.eqb kv.1 key) d.

Definition is_dict (v : pyval) : bool :=
  match v with PDict _ => true | _ => false end.

(** The ways a request yields no reading. *)
Inductive fetch_failure : http_result -> Prop :=
| transport_failure e :
    fetch_failure (Transport e)
| non_success_status status json :
    status <> 200 ->
    fetch_failure (Response status json)
| undecodable_body e :
    fetch_failure (Response 200 (Raises e))
| payload_not_object data :
    is_dict data = false ->
    fetch_failure (Response 200 (Returns data))
| current_weather_missing d :
    dict_has d "current_weather" = false ->
    fetch_failure (Response 200 (Returns (PDict d)))
| current_weather_not_object d :
    is_dict (dict_get d "current_weather" PNone) = false ->
    fetch_failure (Response 200 (Returns (PDict d)))
| temperature_missing d cw :
    dict_get d "current_weather" PNone = PDict cw ->
    dict_has cw "temperature" = false ->
    fetch_failure (Response 200 (Returns (PDict d)))
| temperature_null d cw :
    dict_get d "current_weather" PNone = PDict cw ->
    dict_get cw "temperature" PNone = PNone ->
    fetch_failure (Response 200 (Returns (PDict d))).

(** The payload has a [current_weather.temperature] field holding [value]. *)
Definition payload_temperature (r : http_result) (value : pyval) : Prop :=
  exists d cw,
    r = Response 200 (Returns (PDict d)) /\
    dict_get d "current_weather" PNone = PDict cw /\
    dict_has cw "temperature" = true /\
    dict_get cw "temperature" PNone = value.

(** A reading is a JSON number. *)
Definition is_number (v : pyval) : bool :=
  match v with PInt _ | PFloat _ => true | _ => false end.

(** The point invariant, in its two directions. *)
Definition reading_has_timestamp (city : City.t) : Prop :=
  City.temperature city <> PNone -> City.updated_at city <> None.

Definition timestamp_has_reading (city : City.t) : Prop :=
  City.updated_at city <> None -> City.temperature city <> PNone.

(** What task [t] of city [c0] has done to its object so far. *)
Definition task_ok (now : datetime) (session : ClientSession)
    (c0 : City.t) (t : task) (obj : City.t) : Prop :=
  match t with
  | Pending => obj = c0
  | Awaiting latitude longitude =>
      obj = c0 /\ refresh_due now c0 = true /\
      latitude = City.latitude c0 /\ longitude = City.longitude c0
  | Finished => obj = refreshed now session c0
  | Failed _ => False
  end.

(** The calls task [t] of city [c0] has made so far. *)
Definition issued (now : datetime) (c0 : City.t) (t : task)
  : list fetch_call :=
  match t with
  | Pending => []
  | Awaiting _ _ | Failed _ => [call_of c0]
  | Finished => if refresh_due now c0 then [call_of c0] else []
  end.

(** The invariant of the event loop over a batch of [cities]. *)
Record loop_inv (now : datetime) (session : ClientSession)
    (cities : list City.t) (s : loop_state) : Prop := {
  inv_clock : now <= clock s;
  inv_tasks : length (tasks s) = length cities;
  inv_objects : length (objects s) = length cities;
  inv_task i c0 t :
    cities !! i = Some c0 -> tasks s !! i = Some t ->
    exists obj, objects s !! i = Some obj /\ task_ok now session c0 t obj;
  inv_calls : calls s ≡ₚ concat (zip_with (issued now) cities (tasks s))
}.

(** Work left in the loop: two suspensions for a task not started, one for
    a task awaiting its response. *)
Definition task_weight (t : task) : nat :=
  match t with
  | Pending => 2
  | Awaiting _ _ => 1
  | Finished | Failed _ => 0
  end.

(** The provider contract in the words of the specification: whatever the
    response, the fetch yields a numeric reading or no reading at all. *)
Definition fetch_yields_reading_or_none : Prop :=
  forall (session : ClientSession) (latitude longitude : float),
    exists value,
      fetch_weather session latitude longitude = Returns value /\
      (value = PNone \/ is_number value = true).

(** The refresh contract in the words of the specification: when the fetch
    for a due city fails, the batch stamps the city and keeps the reading it
    had. *)
Definition failed_fetch_keeps_reading : Prop :=
  forall now session cities cities' made i city,
    gather now session cities = Returns (cities', made) ->
    cities !! i = Some city ->
    refresh_due now city = true ->
    fetch_failure (session (City.latitude city) (City.longitude city)) ->
    exists city',
      cities' !! i = Some city' /\
      City.updated_at city' = Some now /\
      City.temperature city' = City.temperature city.

(** The point invariant in the words of the specification: in every
    reachable database a city has a reading exactly when it has a
    timestamp. *)
Definition reading_iff_timestamp : Prop :=
  forall db, reachable db ->
    forall city, In city (cities db) ->
      reading_has_timestamp city /\ timestamp_has_reading city.

(** ** A worked batch

    Three cities of user 1, all due at [noon]; the provider times out for
    the coordinates of Rome and reports 21.5 degrees anywhere else. *)

Definition oslo : City.t := City.mk 1 "Oslo" 59.5 10.75 PNone None 1.
Definition rome : City.t := City.mk 2 "Rome" 41.5 12.5 (PFloat 18.5) (Some 0) 1.
Definition kyiv : City.t := City.mk 3 "Kyiv" 50.5 30.5 PNone None 1.

Definition noon : datetime := timedelta_minutes 60.

Definition reading (t : float) : pyval :=
  PDict [("current_weather", PDict [("temperature", PFloat t)])].

Definition rome_is_down : ClientSession :=
  fun latitude longitude =>
    if PrimFloat.eqb latitude 41.5 then Transport TimeoutError
    else Response 200 (Returns (reading 21.5)).

(** The loop after the three responses came in, Rome's timeout last, thirty
    seconds after [noon]. *)
Definition worked_batch_end : loop_state :=
  mkLoop (noon + 30000000)
         [store_reading oslo (PFloat 21.5) noon;
          store_reading rome PNone noon;
          store_reading kyiv (PFloat 21.5) noon]
         [Finished; Finished; Finished]
         [call_of oslo; call_of rome; call_of kyiv].

(** The database after user ann registered, logged in, added Oslo and
    Rome, and refreshed at [noon] while the provider was down for Rome. *)
Definition worked_db : Db :=
  mkDb [User.mk 1 "ann" "pw" true]
       [City.mk 1 "Oslo" 59.5 10.75 (PFloat 21.5) (Some noon) 1;
        City.mk 2 "Rome" 41.5 12.5 PNone (Some noon) 1]
       [].

Definition ann : User.t := User.mk 1 "ann" "pw" true.

(** The same database before that refresh. *)
Definition unrefreshed_db : Db :=
  mkDb [ann]
       [City.mk 1 "Oslo" 59.5 10.75 PNone None 1;
        City.mk 2 "Rome" 41.5 12.5 PNone None 1]
       [].

(** A database where Oslo was refreshed five minutes before [noon] and Rome
    never, and where Kyiv belongs to another user. *)
Definition mixed_db : Db :=
  mkDb [ann; User.mk 2 "bob" "pw" true]
       [City.mk 1 "Oslo" 59.5 10.75 (PFloat 3.5)
                (Some (noon - timedelta_minutes 5)) 1;
        City.mk 2 "Rome" 41.5 12.5 PNone None 1;
        City.mk 3 "Kyiv" 50.5 30.5 PNone None 2]
       [].

(** ** Vocabulary of the handler properties *)

(** The rows of [db.query(City).filter(City.user_id == uid)]. *)
Definition cities_of (uid : Z) (db : Db) : list City.t :=
  List.filter (fun c => City.user_id c =? uid) (cities db).

(** City [c] is a fresh copy of default city [d] for user [uid]. *)
Definition seeded_from (uid : Z) (c : City.t) (d : DefaultCity.t) : Prop :=
  City.name c = DefaultCity.name d /\
  City.latitude c = DefaultCity.latitude d /\
  City.longitude c = DefaultCity.longitude d /\
  City.user_id c = uid /\
  City.temperature c = PNone /\
  City.updated_at c = None.

(** The [user_id] cookie that [login] sets on its redirect, as the integer
    the framework reads back from it; [None] when [login] shows the form
    again and sets no cookie. *)
Definition login_cookie (verify_password : string -> string -> bool)
    (username password : string) (db : Db) : option Z :=
  match head (List.filter (fun u => String.eqb (User.username u) username)
                          (users db)) with
  | None => None
  | Some user =>
      if negb (verify_password password (User.password_hash user))
      then None
      else Some (User.id user)
  end.

(** City [c] belongs to a row of the users table. *)
Definition has_owner (us : list User.t) (c : City.t) : Prop :=
  exists u, In u us /\ User.id u = City.user_id c.

(** The columns of a default city that come from [cities.csv]. *)
Definition default_data (d : DefaultCity.t) : string * float * float :=
  (DefaultCity.name d, DefaultCity.latitude d, DefaultCity.longitude d).

(** The work left in a state of the event loop. *)
Definition work_left (s : loop_state) : nat :=
  sum_list_with task_weight (tasks s).

Definition bob : User.t := User.mk 2 "bob" "pw" true.

(** A database with two default cities, where ann has a refreshed city and
    bob a city of his own. *)
Definition defaults_db : Db :=
  mkDb [ann; bob]
       [City.mk 1 "Kyiv" 50.5 30.5 (PFloat 3.5) (Some noon) 1;
        City.mk 2 "Lima" 12.5 77.5 PNone None 2]
       [DefaultCity.mk 1 "Oslo" 59.5 10.75;
        DefaultCity.mk 2 "Rome" 41.5 12.5].

(** The worked batch under another schedule: the requests go out for Kyiv
    first and Oslo last, and the last response arrives two seconds after
    [noon]. *)
Definition worked_batch_end_2 : loop_state :=
  mkLoop (noon + 2000000)
         [store_reading oslo (PFloat 21.5) noon;
          store_reading rome PNone noon;
          store_reading kyiv (PFloat 21.5) noon]
         [Finished; Finished; Finished]
         [call_of kyiv; call_of rome; call_of oslo].

(** ** The database driver

    The handlers above hand every value to the database as it is, which is
    what the program does as long as the driver takes the value.  The
    SQLite driver refuses or changes a value in three places, added here:
    an [int] is bound only if it fits a signed 64-bit integer; a [Float]
    column is given [float(value)] of a value that is not [None]; and a
    REAL is kept without a NaN, which becomes NULL, and without the sign of
    zero. *)

Definition sqlite_int (z : Z) : bool := (- 2 ^ 63 <=? z) && (z <? 2 ^ 63).

(** Binding an [int] to a statement. *)
Definition bind_int (z : Z) : outcome Z :=
  if sqlite_int z then Returns z else Raises OverflowError.

(** What a REAL column holds after [f] was written to it. *)
Definition sqlite_REAL (f : float) : pyval :=
  if PrimFloat.is_nan f then PNone
  else if PrimFloat.eqb f 0 then PFloat 0
  else PFloat f.

(** [float(z)] of an [int]: the nearest double, ties to even. *)
Definition int_float (z : Z) : float :=
  SF2Prim (binary_normalize prec emax z 0 false).

(** Binding a value to a [Float] column.  [float(s)] of a [str] is the
    parameter [str_float], [None] where it raises. *)
Definition Float_bind (str_float : string -> option float) (v : pyval)
  : outcome pyval :=
  match v with
  | PNone => Returns PNone
  | PFloat f => Returns (sqlite_REAL f)
  | PInt z =>
      if PrimFloat.is_infinity (int_float z) then Raises StatementError
      else Returns (sqlite_REAL (int_float z))
  | PBool b => Returns (PFloat (if b then 1 else 0))
  | PStr s =>
      match str_float s with
      | Some f => Returns (sqlite_REAL f)
      | None => Raises StatementError
      end
  | PList _ | PDict _ => Raises StatementError
  end.

(** Running [f] over a list, stopping at the first exception. *)
Fixpoint mapM_outcome {A B} (f : A -> outcome B) (l : list A)
  : outcome (list B) :=
  match l with
  | [] => Returns []
  | a :: rest =>
      b <~ f a;
      bs <~ mapM_outcome f rest;
      Returns (b :: bs)
  end.

(** [get_current_user] with the binding of [user_id] in its query. *)
Definition get_current_user_sqlite (user_id : option Z) (db : Db)
  : outcome (option User.t) :=
  match user_id with
  | None => Returns None
  | Some uid =>
      if uid =? 0 then Returns None
      else
        bound <~ bind_int uid;
        Returns (head (List.filter (fun u => User.id u =? bound) (users db)))
  end.

(** A request: the framework resolves the [user] dependency and calls the
    handler with it. *)
Definition request {A} (cookie : option Z) (db : Db)
    (handler : option User.t -> outcome A) : outcome A :=
  user <~ get_current_user_sqlite cookie db;
  handler user.

(** [remove_city] with the binding of [city_id] in its query; [user.id] is
    read before the query runs. *)
Definition remove_city_sqlite (city_id : Z) (db : Db) (user : option User.t)
  : outcome (response * Db) :=
  uid <~ user_dot_id user;
  bound <~ bind_int city_id;
  let city :=
    head (List.filter
            (fun c => (City.id c =? bound) && (City.user_id c =? uid))
            (cities db)) in
  match city with
  | Some c =>
      Returns (RedirectResponse "/" 303,
               set_cities db
                 (List.filter (fun r => negb (City.id r =? City.id c))
                              (cities db)))
  | None => Returns (RedirectResponse "/" 303, db)
  end.

(** [db.commit()] after a batch, with the [Float] column: the row of each
    object that was fetched for is written back under its primary key, its
    temperature bound to the column; a value the column refuses makes the
    commit raise, and then no row is written. *)
Definition commit_cities_sqlite (str_float : string -> option float)
    (objects : list City.t) (made : list fetch_call) (rows : list City.t)
  : outcome (list City.t) :=
  mapM_outcome
    (fun row =>
       match List.find (fun o => City.id o =? City.id row) objects with
       | Some o =>
           if existsb (fun call => call_city call =? City.id o) made then
             stored <~ Float_bind str_float (City.temperature o);
             Returns (City.mk (City.id o) (City.name o) (City.latitude o)
                              (City.longitude o) stored (City.updated_at o)
                              (City.user_id o))
           else Returns row
       | None => Returns row
       end)
    rows.

(** [update_weather] with that commit. *)
Definition update_weather_sqlite (str_float : string -> option float)
    (now : datetime) (session : ClientSession)
    (db : Db) (user : option User.t)
  : outcome (response * Db * list fetch_call) :=
  uid <~ user_dot_id user;
  let cities_ := List.filter (fun c => City.user_id c =? uid) (cities db) in
  r <~ gather now session cities_;
  rows <~ commit_cities_sqlite str_float r.1 r.2 (cities db);
  Returns (RedirectResponse "/" 303, set_cities db rows, r.2).

(** The names are pairwise distinct. *)
Fixpoint distinct (names : list string) : bool :=
  match names with
  | [] => true
  | n :: rest => negb (existsb (String.eqb n) rest) && distinct rest
  end.

(** [populate_default_cities] with the unique constraint on the name of a
    default city: two rows of one name make the commit raise, and then no
    row is stored. *)
Definition populate_default_cities_sqlite
    (rows : list (string * float * float)) (db : Db) : outcome Db :=
  match default_cities db with
  | _ :: _ => Returns db
  | [] =>
      if distinct (map (fun row => row.1.1) rows)
      then Returns (populate_default_cities rows db)
      else Raises IntegrityError
  end.

(** What the refresh of user [uid] leaves of one row, when the commit goes
    through. *)
Definition stored_row (str_float : string -> option float) (now : datetime)
    (session : ClientSession) (uid : Z) (row : City.t) : outcome City.t :=
  if (City.user_id row =? uid) && refresh_due now row then
    stored <~ Float_bind str_float
                (fetched session (City.latitude row) (City.longitude row));
    Returns (store_reading row stored now)
  else Returns row.

(** A fetch error in the words of the specification: a failure that
    [fetch_weather] reports, or a temperature field that is not a
    number. *)
Definition spec_fetch_error (r : http_result) : Prop :=
  fetch_failure r \/
  exists value, payload_temperature r value /\ is_number value = false.

(** Failure isolation in the words of the specification: in a batch where
    each due city either gets a reading or a fetch error, the refresh
    returns, every city with a fetch error ends with no temperature and the
    batch's timestamp, and every other due city ends with its reading. *)
Definition spec_failures_are_isolated : Prop :=
  forall str_float now session db user,
    NoDup (map City.id (cities db)) ->
    (forall c, In c (cities_of (User.id user) db) -> refresh_due now c = true ->
       spec_fetch_error (session (City.latitude c) (City.longitude c)) \/
       exists t,
         payload_temperature (session (City.latitude c) (City.longitude c))
                             (PFloat t)) ->
    exists r db' made,
      update_weather_sqlite str_float now session db (Some user)
      = Returns (r, db', made) /\
      forall i city,
        cities db !! i = Some city ->
        City.user_id city = User.id user ->
        refresh_due now city = true ->
        exists city',
          cities db' !! i = Some city' /\
          City.updated_at city' = Some now /\
          (spec_fetch_error
             (session (City.latitude city) (City.longitude city)) ->
           City.temperature city' = PNone) /\
          (forall t,
             payload_temperature
               (session (City.latitude city) (City.longitude city))
               (PFloat t) ->
             City.temperature city' = sqlite_REAL t).

(** The handling of an unauthenticated request in the words of the claim:
    without a cookie, or with a cookie that names no user, the root page
    redirects to the login page and the other four handlers read [user.id]
    of [None]. *)
Definition unknown_user_redirects_or_faults : Prop :=
  forall (cookie : option Z) (db : Db),
    (cookie = None \/
     exists uid, cookie = Some uid /\
                 forall u, In u (users db) -> User.id u <> uid) ->
    request cookie db (read_root db)
    = Returns (RedirectResponse "/login" 303) /\
    (forall name latitude longitude,
       request cookie db (add_city name latitude longitude db)
       = Raises AttributeError) /\
    (forall city_id,
       request cookie db (remove_city_sqlite city_id db)
       = Raises AttributeError) /\
    request cookie db (reset_cities db) = Raises AttributeError /\
    (forall str_float now session,
       request cookie db (update_weather_sqlite str_float now session db)
       = Raises AttributeError).

(** The three cities of the worked batch as the rows of user ann. *)
Definition batch_db : Db := mkDb [ann] [oslo; rome; kyiv] [].

(** A provider that answers for the coordinates of Rome with a temperature
    field holding a list, and with 21.5 degrees anywhere else. *)
Definition rome_is_garbled : ClientSession :=
  fun latitude longitude =>
    if PrimFloat.eqb latitude 41.5
    then Response 200
           (Returns (PDict [("current_weather",
                             PDict [("temperature", PList [])])]))
    else Response 200 (Returns (reading 21.5)).

(** * Properties *)

(** ** The refresh policy *)

Lemma cooldown_positive : 0 < timedelta_minutes 15.
Proof. reflexivity. Qed.

(** C1: a city is due for a refresh exactly when it was never refreshed or
    more than the 15 minute cooldown has passed since [updated_at]; when
    exactly the cooldown has passed it is not due. *)
Theorem refresh_due_spec (now : datetime) (city : City.t) :
  (City.updated_at city = None -> refresh_due now city = true) /\
  (forall t, City.updated_at city = Some t ->
     (now - t > timedelta_minutes 15 -> refresh_due now city = true) /\
     (now - t <= timedelta_minutes 15 -> refresh_due now city = false) /\
     (now - t = timedelta_minutes 15 -> refresh_due now city = false)).
Proof.
  unfold refresh_due. split.
  - intros ->. reflexivity.
  - intros t ->. repeat split; intros H.
    + apply Z.ltb_lt. lia.
    + apply Z.ltb_ge. lia.
    + apply Z.ltb_ge. lia.
Qed.

Lemma refresh_due_spec_witness :
  let city := City.mk 1 "Oslo" 59.5 10.75 (PFloat 3.5) (Some 100) 1 in
  refresh_due (100 + timedelta_minutes 15) city = false.
Proof.
  intros city.
  destruct (refresh_due_spec (100 + timedelta_minutes 15) city) as [_ H].
  destruct (H 100 eq_refl) as (_ & _ & Heq).
  apply Heq. reflexivity.
Defined.

(** With a cooldown of 15 minutes: refreshed 10 minutes ago is not due,
    never refreshed is due, refreshed 20 minutes ago is due. *)
Example refresh_due_scenario :
  map (refresh_due noon)
      [City.mk 1 "A" 1.5 2.5 (PFloat 3.5)
               (Some (noon - timedelta_minutes 10)) 1;
       City.mk 2 "B" 1.5 2.5 PNone None 1;
       City.mk 3 "C" 1.5 2.5 (PFloat 3.5)
               (Some (noon - timedelta_minutes 20)) 1]
  = [false; true; true].
Proof. reflexivity. Qed.

(** ** The weather provider *)

Example fetch_weather_reading :
  fetch_weather rome_is_down 59.5 10.75 = Returns (PFloat 21.5).
Proof. reflexivity. Qed.

Example fetch_weather_timeout :
  fetch_weather rome_is_down 41.5 12.5 = Returns PNone.
Proof. reflexivity. Qed.

Example fetch_weather_body_is_a_list :
  fetch_weather (fun _ _ => Response 200 (Returns (PList [PInt 1]))) 41.5 12.5
  = Returns PNone.
Proof. reflexivity. Qed.

Lemma fetch_weather_fetched session latitude longitude :
  fetch_weather session latitude longitude
  = Returns (fetched session latitude longitude).
Proof.
  unfold fetch_weather, fetched, try_except_Exception.
  destruct (fetch_weather_try (session latitude longitude)); reflexivity.
Qed.

Lemma dict_get_missing d key default :
  dict_has d key = false -> dict_get d key default = default.
Proof.
  induction d as [|[k v] d IH]; simpl; [reflexivity|].
  destruct (String.eqb k key); simpl; [discriminate|exact IH].
Qed.

Lemma dict_get_present d key default default' :
  dict_has d key = true -> dict_get d key default = dict_get d key default'.
Proof.
  induction d as [|[k v] d IH]; simpl; [discriminate|].
  destruct (String.eqb k key); simpl; [reflexivity|exact IH].
Qed.

Lemma fetch_failure_None r :
  fetch_failure r ->
  try_except_Exception (fetch_weather_try r) (Returns PNone) = Returns PNone.
Proof.
  intros H. destruct H as
    [e|status json Hne|e|data Hd|d Hd|d Hd|d cw Hcw Ht|d cw Hcw Ht]; simpl.
  - reflexivity.
  - apply Z.eqb_neq in Hne. rewrite Hne. reflexivity.
  - reflexivity.
  - destruct data; try discriminate; reflexivity.
  - rewrite (dict_get_missing _ _ _ Hd). reflexivity.
  - destruct (dict_has d "current_weather") eqn:Hh.
    + rewrite (dict_get_present _ _ _ PNone Hh).
      destruct (dict_get d "current_weather" PNone); try discriminate;
        reflexivity.
    + rewrite (dict_get_missing _ _ _ Hh). reflexivity.
  - destruct (dict_has d "current_weather") eqn:Hh.
    + rewrite (dict_get_present _ _ _ PNone Hh), Hcw. simpl.
      rewrite (dict_get_missing _ _ _ Ht). reflexivity.
    + rewrite (dict_get_missing _ _ _ Hh) in Hcw. discriminate.
  - destruct (dict_has d "current_weather") eqn:Hh.
    + rewrite (dict_get_present _ _ _ PNone Hh), Hcw. simpl.
      rewrite Ht. reflexivity.
    + rewrite (dict_get_missing _ _ _ Hh) in Hcw. discriminate.
Qed.

Lemma payload_temperature_value r value :
  payload_temperature r value ->
  try_except_Exception (fetch_weather_try r) (Returns PNone) = Returns value.
Proof.
  intros (d & cw & -> & Hcw & Hh & Hv). simpl.
  destruct (dict_has d "current_weather") eqn:Hd.
  - rewrite (dict_get_present _ _ _ PNone Hd), Hcw. simpl. rewrite Hv.
    reflexivity.
  - rewrite (dict_get_missing _ _ _ Hd) in Hcw. discriminate.
Qed.

Lemma fetch_cases r :
  fetch_failure r \/ exists value, payload_temperature r value.
Proof.
  destruct r as [e|status json].
  - left. apply transport_failure.
  - destruct (Z.eq_dec status 200) as [->|Hne].
    2:{ left. apply non_success_status. exact Hne. }
    destruct json as [data|e].
    2:{ left. apply undecodable_body. }
    destruct (is_dict data) eqn:Hdata.
    2:{ left. apply payload_not_object. exact Hdata. }
    destruct data as [| | | | | |d]; try discriminate.
    destruct (dict_get d "current_weather" PNone) as [| | | | | |cw] eqn:Hcw.
    1-6: left; apply current_weather_not_object; rewrite Hcw; reflexivity.
    destruct (dict_has cw "temperature") eqn:Ht.
    + right. exists (dict_get cw "temperature" PNone), d, cw. auto.
    + left. eapply temperature_missing; eauto.
Qed.

(** C7, as stated, fails: a [temperature] field that is not a number is
    handed to the caller as it is. *)
Lemma fetch_weather_returns_malformed_field :
  ~ fetch_yields_reading_or_none.
Proof.
  intros H.
  destruct (H (fun _ _ =>
                 Response 200
                   (Returns (PDict [("current_weather",
                                     PDict [("temperature", PStr "warm")])])))
              59.5%float 10.75%float) as (value & Hv & Hcase).
  vm_compute in Hv. inversion Hv; subst.
  destruct Hcase as [Hn|Hn]; discriminate.
Qed.

(** C7, amended: [fetch_weather] never raises; a transport failure, a status
    other than 200, an undecodable body, a payload that is not an object, a
    missing or non-object [current_weather] and a missing or null
    [temperature] all give [None]; in the one remaining case the
    [temperature] field of the payload is returned as it is. *)
Theorem fetch_weather_total (session : ClientSession)
    (latitude longitude : float) :
  (exists value, fetch_weather session latitude longitude = Returns value) /\
  (fetch_failure (session latitude longitude) ->
   fetch_weather session latitude longitude = Returns PNone) /\
  (forall value,
     payload_temperature (session latitude longitude) value ->
     fetch_weather session latitude longitude = Returns value) /\
  (fetch_failure (session latitude longitude) \/
   exists value, payload_temperature (session latitude longitude) value).
Proof.
  split; [|split; [|split]].
  - eexists. apply fetch_weather_fetched.
  - apply fetch_failure_None.
  - intros value. apply payload_temperature_value.
  - apply fetch_cases.
Qed.

Lemma fetch_weather_total_witness :
  fetch_weather (fun _ _ => Response 503 (Raises ContentTypeError))
                59.5%float 10.75%float = Returns PNone.
Proof.
  destruct (fetch_weather_total
              (fun _ _ => Response 503 (Raises ContentTypeError))
              59.5%float 10.75%float) as (_ & Hfail & _).
  apply Hfail. apply non_success_status. lia.
Defined.

(** ** Handlers *)

Lemma head_filter_In {A} (f : A -> bool) (l : list A) (x : A) :
  In x l -> f x = true -> exists y, head (List.filter f l) = Some y.
Proof.
  induction l as [|a l IH]; simpl; [intros []|].
  intros [->|Hin] Hf.
  - rewrite Hf. eauto.
  - destruct (f a); simpl; eauto.
Qed.

Lemma head_filter_None {A} (f : A -> bool) (l : list A) :
  (forall x, In x l -> f x = false) -> head (List.filter f l) = None.
Proof.
  induction l as [|a l IH]; simpl; [reflexivity|].
  intros H. rewrite (H a (or_introl eq_refl)). apply IH.
  intros x Hx. apply H. right. exact Hx.
Qed.

(** C8: adding a city under a name the user already has returns the
    redirect and leaves the database, hence the user's cities and their
    number, as it was. *)
Theorem add_city_duplicate_is_noop (name : string) (latitude longitude : float)
    (db : Db) (user : User.t) (existing : City.t) :
  In existing (cities db) ->
  City.name existing = name ->
  City.user_id existing = User.id user ->
  add_city name latitude longitude db (Some user)
  = Returns (RedirectResponse "/" 303, db).
Proof.
  intros Hin Hname Huser. unfold add_city. simpl.
  destruct (head_filter_In
              (fun c => String.eqb (City.name c) name
                        && (City.user_id c =? User.id user))
              (cities db) existing Hin) as [y Hy].
  - rewrite Hname, Huser, String.eqb_refl, Z.eqb_refl. reflexivity.
  - rewrite Hy. reflexivity.
Qed.

Lemma add_city_duplicate_is_noop_witness :
  let user := User.mk 1 "ann" "hash" true in
  let city := City.mk 1 "X" 59.5 10.75 PNone None 1 in
  let db := mkDb [user] [city] [] in
  add_city "X" 1.5 2.5 db (Some user)
  = Returns (RedirectResponse "/" 303, db).
Proof.
  intros user city db.
  apply (add_city_duplicate_is_noop "X" 1.5 2.5 db user city).
  - simpl. left. reflexivity.
  - reflexivity.
  - reflexivity.
Defined.

Lemma get_current_user_sqlite_unknown cookie db :
  (cookie = None \/
   exists uid, cookie = Some uid /\ sqlite_int uid = true /\
               forall u, In u (users db) -> User.id u <> uid) ->
  get_current_user_sqlite cookie db = Returns None.
Proof.
  intros [->|(uid & -> & Hrange & Hunknown)]; [reflexivity|].
  unfold get_current_user_sqlite, bind_int.
  destruct (uid =? 0); [reflexivity|]. rewrite Hrange. simpl.
  rewrite head_filter_None; [reflexivity|].
  intros u Hu. apply Z.eqb_neq. auto.
Qed.

(** C10, as stated, fails: the cookie 2^63 names no user, and the request
    for the root page raises in the user lookup instead of redirecting. *)
Lemma unknown_user_overflows : ~ unknown_user_redirects_or_faults.
Proof.
  intros H. destruct (H (Some (2 ^ 63)) worked_db) as [Hroot _].
  - right. exists (2 ^ 63). split; [reflexivity|].
    simpl. intros u [<-|[]]. simpl. lia.
  - vm_compute in Hroot. discriminate.
Qed.

(** C10, amended: without a [user_id] cookie, or with one that fits a
    signed 64-bit integer and names no user, the root page redirects to the
    login page, while adding, removing, resetting and refreshing read
    [user.id] of [None] and raise. *)
Theorem unauthenticated_request_bound (cookie : option Z) (db : Db) :
  (cookie = None \/
   exists uid, cookie = Some uid /\ sqlite_int uid = true /\
               forall u, In u (users db) -> User.id u <> uid) ->
  request cookie db (read_root db)
  = Returns (RedirectResponse "/login" 303) /\
  (forall name latitude longitude,
     request cookie db (add_city name latitude longitude db)
     = Raises AttributeError) /\
  (forall city_id,
     request cookie db (remove_city_sqlite city_id db)
     = Raises AttributeError) /\
  request cookie db (reset_cities db) = Raises AttributeError /\
  (forall str_float now session,
     request cookie db (update_weather_sqlite str_float now session db)
     = Raises AttributeError).
Proof.
  intros H. unfold request.
  rewrite (get_current_user_sqlite_unknown cookie db H).
  repeat split.
Qed.

Lemma unauthenticated_request_bound_witness :
  let db := mkDb [User.mk 1 "ann" "hash" true] [] [] in
  request (Some 7) db (read_root db)
  = Returns (RedirectResponse "/login" 303) /\
  request (Some 7) db (remove_city_sqlite (2 ^ 63) db)
  = Raises AttributeError.
Proof.
  intros db.
  assert (Hunknown : Some 7 = None \/
            exists uid, Some 7 = Some uid /\ sqlite_int uid = true /\
                        forall u, In u (users db) -> User.id u <> uid).
  { right. exists 7. split; [reflexivity|split; [reflexivity|]].
    simpl. intros u [<-|[]]. simpl. lia. }
  destruct (unauthenticated_request_bound (Some 7) db Hunknown)
    as (Hroot & _ & Hremove & _).
  split; [exact Hroot|apply Hremove].
Defined.

(** ** One refresh batch, run sequentially *)

Lemma update_city_refreshed now session city :
  update_city now session city
  = Returns (refreshed now session city,
             if refresh_due now city then [call_of city] else []).
Proof.
  unfold update_city, refreshed.
  destruct (refresh_due now city); [|reflexivity].
  rewrite fetch_weather_fetched. reflexivity.
Qed.

Lemma gather_refreshed now session cities :
  gather now session cities
  = Returns (map (refreshed now session) cities,
             map call_of (List.filter (refresh_due now) cities)).
Proof.
  induction cities as [|city rest IH]; simpl; [reflexivity|].
  rewrite update_city_refreshed, IH. simpl.
  destruct (refresh_due now city); reflexivity.
Qed.


Lemma refreshed_frame now session city :
  City.id (refreshed now session city) = City.id city /\
  City.name (refreshed now session city) = City.name city /\
  City.latitude (refreshed now session city) = City.latitude city /\
  City.longitude (refreshed now session city) = City.longitude city /\
  City.user_id (refreshed now session city) = City.user_id city.
Proof. unfold refreshed. destruct (refresh_due now city); repeat split. Qed.

(** ** One refresh batch, under any schedule *)

Section Schedule.
Variable now : datetime.
Variable session : ClientSession.
Variable cities : list City.t.

Lemma issued_insert (cs : list City.t) (ts : list task) i c0 t t' extra :
  cs !! i = Some c0 -> ts !! i = Some t ->
  issued now c0 t' ≡ₚ issued now c0 t ++ extra ->
  concat (zip_with (issued now) cs (<[i:=t']> ts))
  ≡ₚ concat (zip_with (issued now) cs ts) ++ extra.
Proof.
  revert ts i. induction cs as [|c cs IH]; intros ts i Hc Ht Hp.
  - rewrite lookup_nil in Hc. discriminate.
  - destruct ts as [|t0 ts]; [rewrite lookup_nil in Ht; discriminate|].
    destruct i as [|i]; simpl in *.
    + inversion Hc; inversion Ht; subst. rewrite Hp.
      rewrite <- !app_assoc. apply Permutation_app_head.
      apply Permutation_app_comm.
    + rewrite (IH ts i Hc Ht Hp). rewrite app_assoc. reflexivity.
Qed.

Lemma issued_all_finished (cs : list City.t) (ts : list task) :
  length ts = length cs -> Forall (fun t => t = Finished) ts ->
  concat (zip_with (issued now) cs ts)
  = map call_of (List.filter (refresh_due now) cs).
Proof.
  revert ts. induction cs as [|c cs IH]; intros [|t ts] Hlen Hall;
    simpl in *; try discriminate; [reflexivity|].
  inversion Hall; subst. rewrite IH by (auto; lia). simpl.
  destruct (refresh_due now c); reflexivity.
Qed.

Lemma loop_inv_start : loop_inv now session cities (loop_start now cities).
Proof.
  split; simpl.
  - lia.
  - apply length_replicate.
  - reflexivity.
  - intros i c0 t Hc Ht. apply lookup_replicate in Ht as [-> _].
    exists c0. split; [exact Hc|reflexivity].
  - clear. induction cities as [|c cs IH]; simpl; [reflexivity|exact IH].
Qed.

Lemma loop_inv_step s s' :
  loop_inv now session cities s -> loop_step now session s s' ->
  loop_inv now session cities s'.
Proof.
  intros [Hclock Htasks Hobjs Htask Hcalls] Hstep.
  destruct Hstep as
    [s i city time Hi Ho Hdue Ht
    |s i city time Hi Ho Hdue Ht
    |s i lat lon value city time Hi Hf Ho Ht
    |s i lat lon e time Hi Hf Ht].
  - assert (Hc : cities !! i = Some city).
    { destruct (lookup_lt_is_Some_2 cities i) as [c0 Hc0].
      - rewrite <- Htasks. eapply lookup_lt_Some; eauto.
      - destruct (Htask i c0 _ Hc0 Hi) as (obj & Hobj & Hok).
        simpl in Hok. congruence. }
    split; simpl.
    + lia.
    + rewrite length_insert. exact Htasks.
    + exact Hobjs.
    + intros j c0 t Hc0 Hj.
      apply list_lookup_insert_Some in Hj as [(<- & <- & _)|[Hne Hj]].
      * exists city. split; [exact Ho|]. simpl. unfold refreshed.
        assert (c0 = city) as -> by congruence. rewrite Hdue. reflexivity.
      * eauto.
    + rewrite (issued_insert cities (tasks s) i city Pending Finished []
                 Hc Hi), app_nil_r; [exact Hcalls|].
      simpl. rewrite Hdue. reflexivity.
  - assert (Hc : cities !! i = Some city).
    { destruct (lookup_lt_is_Some_2 cities i) as [c0 Hc0].
      - rewrite <- Htasks. eapply lookup_lt_Some; eauto.
      - destruct (Htask i c0 _ Hc0 Hi) as (obj & Hobj & Hok).
        simpl in Hok. congruence. }
    split; simpl.
    + lia.
    + rewrite length_insert. exact Htasks.
    + exact Hobjs.
    + intros j c0 t Hc0 Hj.
      apply list_lookup_insert_Some in Hj as [(<- & <- & _)|[Hne Hj]].
      * exists city. split; [exact Ho|]. simpl.
        assert (c0 = city) as -> by congruence. auto.
      * eauto.
    + rewrite (issued_insert cities (tasks s) i city Pending
                 (Awaiting (City.latitude city) (City.longitude city))
                 [call_of city] Hc Hi); [|reflexivity].
      rewrite Hcalls. reflexivity.
  - destruct (lookup_lt_is_Some_2 cities i) as [c0 Hc0].
    { rewrite <- Htasks. eapply lookup_lt_Some; eauto. }
    destruct (Htask i c0 _ Hc0 Hi) as (obj & Hobj & Hok).
    simpl in Hok. destruct Hok as (-> & Hdue & -> & ->).
    assert (city = c0) as -> by congruence.
    split; simpl.
    + lia.
    + rewrite length_insert. exact Htasks.
    + rewrite length_insert. exact Hobjs.
    + intros j c1 t Hc1 Hj.
      apply list_lookup_insert_Some in Hj as [(<- & <- & _)|[Hne Hj]].
      * assert (c1 = c0) as -> by congruence.
        eexists. split.
        -- apply list_lookup_insert_eq. eapply lookup_lt_Some; eauto.
        -- simpl. unfold refreshed. rewrite Hdue.
           rewrite fetch_weather_fetched in Hf. inversion Hf. reflexivity.
      * rewrite list_lookup_insert_ne by exact Hne. eauto.
    + rewrite (issued_insert cities (tasks s) i c0
                 (Awaiting (City.latitude c0) (City.longitude c0)) Finished
                 [] Hc0 Hi), app_nil_r; [exact Hcalls|].
      simpl. rewrite Hdue. reflexivity.
  - rewrite fetch_weather_fetched in Hf. discriminate.
Qed.

Lemma loop_inv_run s :
  loop_run now session cities s -> loop_inv now session cities s.
Proof.
  unfold loop_run.
  apply (rtc_ind_r (loop_inv now session cities) (loop_start now cities)).
  - apply loop_inv_start.
  - intros y z _ Hstep IH. eapply loop_inv_step; eauto.
Qed.
Lemma lookup_map {A B} (f : A -> B) (l : list A) (i : nat) :
  map f l !! i = f <$> (l !! i).
Proof.
  revert i. induction l as [|a l IH]; intros [|i]; simpl; auto.
Qed.

(** When [gather] returns, the objects and the calls are those of the
    sequential run, whatever the schedule was. *)
Lemma loop_done_result s :
  loop_run now session cities s -> gather_done s ->
  objects s = map (refreshed now session) cities /\
  calls s ≡ₚ map call_of (List.filter (refresh_due now) cities).
Proof.
  intros Hrun Hdone. destruct (loop_inv_run s Hrun) as [_ Hlt Hlo Htask Hcalls].
  split.
  - apply list_eq. intros i. rewrite lookup_map.
    destruct (cities !! i) as [c0|] eqn:Hc; simpl.
    + destruct (lookup_lt_is_Some_2 (tasks s) i) as [t Ht].
      { rewrite Hlt. eapply lookup_lt_Some; eauto. }
      destruct (Htask i c0 t Hc Ht) as (obj & Hobj & Hok).
      rewrite (Forall_lookup_1 _ _ _ _ Hdone Ht) in Hok. simpl in Hok.
      congruence.
    + apply lookup_ge_None. rewrite Hlo. apply lookup_ge_None. exact Hc.
  - rewrite Hcalls. rewrite (issued_all_finished _ _ Hlt Hdone). reflexivity.
Qed.

Lemma loop_never_fails s i e :
  loop_run now session cities s -> tasks s !! i <> Some (Failed e).
Proof.
  intros Hrun Hi. destruct (loop_inv_run s Hrun) as [_ Hlt _ Htask _].
  destruct (lookup_lt_is_Some_2 cities i) as [c0 Hc].
  { rewrite <- Hlt. eapply lookup_lt_Some; eauto. }
  destruct (Htask i c0 _ Hc Hi) as (obj & _ & []).
Qed.

Lemma task_weight_insert (ts : list task) (i : nat) (t t' : task) :
  ts !! i = Some t -> (task_weight t' < task_weight t)%nat ->
  (sum_list_with task_weight (<[i:=t']> ts)
   < sum_list_with task_weight ts)%nat.
Proof.
  revert i. induction ts as [|t0 ts IH]; intros [|i] Hi Hlt; simpl in *;
    try discriminate.
  - inversion Hi; subst. lia.
  - specialize (IH i Hi Hlt). lia.
Qed.

Lemma tasks_done_or_waiting (ts : list task) :
  (forall i e, ts !! i <> Some (Failed e)) ->
  Forall (fun t => t = Finished) ts \/
  exists i t, ts !! i = Some t /\ (0 < task_weight t)%nat.
Proof.
  induction ts as [|t ts IH]; intros Hnf; [left; constructor|].
  destruct t as [|lat lon| |e].
  - right. exists 0%nat, Pending. split; [reflexivity|simpl; lia].
  - right. exists 0%nat, (Awaiting lat lon). split; [reflexivity|simpl; lia].
  - destruct IH as [Hall|(i & t & Hi & Hw)].
    + intros i e. apply (Hnf (S i) e).
    + left. constructor; auto.
    + right. exists (S i), t. auto.
  - destruct (Hnf 0%nat e). reflexivity.
Qed.

(** Every task gets to its end: from any state of the loop, [gather] can
    return. *)
Lemma loop_completes s :
  loop_run now session cities s ->
  exists s', rtc (loop_step now session) s s' /\ gather_done s'.
Proof.
  remember (sum_list_with task_weight (tasks s)) as n eqn:Hn.
  revert s Hn. induction n as [n IH] using lt_wf_ind. intros s Hn Hrun.
  destruct (tasks_done_or_waiting (tasks s)) as [Hdone|(i & t & Hi & Hw)].
  { intros i e. apply loop_never_fails. exact Hrun. }
  { exists s. split; [apply rtc_refl|exact Hdone]. }
  destruct (loop_inv_run s Hrun) as [_ Hlt _ Htask _].
  destruct (lookup_lt_is_Some_2 cities i) as [c0 Hc].
  { rewrite <- Hlt. eapply lookup_lt_Some; eauto. }
  destruct (Htask i c0 t Hc Hi) as (obj & Hobj & Hok).
  assert (Hnext : exists s1, loop_step now session s s1 /\
            (sum_list_with task_weight (tasks s1) < n)%nat).
  { destruct t as [|lat lon| |e]; simpl in Hok, Hw; try lia.
    - subst obj. destruct (refresh_due now c0) eqn:Hdue.
      + eexists. split.
        * apply (task_calls now session s i c0 (clock s) Hi Hobj Hdue). lia.
        * subst n. simpl. eapply task_weight_insert; eauto.
      + eexists. split.
        * apply (task_skips now session s i c0 (clock s) Hi Hobj Hdue). lia.
        * subst n. simpl. eapply task_weight_insert; eauto.
    - eexists. split.
      + apply (task_resumes now session s i lat lon _ obj (clock s) Hi
                 (fetch_weather_fetched session lat lon) Hobj). lia.
      + subst n. simpl. eapply task_weight_insert; eauto. }
  destruct Hnext as (s1 & Hstep & Hless).
  destruct (IH _ Hless s1 eq_refl) as (s' & Hrun' & Hdone').
  { eapply rtc_r; eauto. }
  exists s'. split; [|exact Hdone']. eapply rtc_l; eauto.
Qed.
End Schedule.

(** A schedule of the worked batch: the three requests go out, then the
    responses arrive for Kyiv, for Oslo and, as a timeout, for Rome. *)
Lemma worked_batch_run :
  loop_run noon rome_is_down [oslo; rome; kyiv] worked_batch_end.
Proof.
  unfold loop_run.
  eapply rtc_l.
  { apply (task_calls _ _ _ 0%nat oslo (noon + 1));
      [reflexivity..|simpl; lia]. }
  eapply rtc_l.
  { apply (task_calls _ _ _ 1%nat rome (noon + 2));
      [reflexivity..|simpl; lia]. }
  eapply rtc_l.
  { apply (task_calls _ _ _ 2%nat kyiv (noon + 3));
      [reflexivity..|simpl; lia]. }
  eapply rtc_l.
  { apply (task_resumes _ _ _ 2%nat 50.5%float 30.5%float (PFloat 21.5)
             kyiv (noon + 400000));
      [reflexivity..|simpl; lia]. }
  eapply rtc_l.
  { apply (task_resumes _ _ _ 0%nat 59.5%float 10.75%float (PFloat 21.5)
             oslo (noon + 500000));
      [reflexivity..|simpl; lia]. }
  eapply rtc_l.
  { apply (task_resumes _ _ _ 1%nat 41.5%float 12.5%float PNone
             rome (noon + 30000000));
      [reflexivity..|simpl; lia]. }
  apply rtc_refl.
Qed.

Lemma worked_batch_done : gather_done worked_batch_end.
Proof. repeat constructor. Qed.

(** The sequential run of the worked batch ends where the schedule above
    does. *)
Example worked_batch_gather :
  gather noon rome_is_down [oslo; rome; kyiv]
  = Returns (objects worked_batch_end, calls worked_batch_end).
Proof. reflexivity. Qed.

(** ** What a batch does to a city *)

Lemma fetched_failure session latitude longitude :
  fetch_failure (session latitude longitude) ->
  fetched session latitude longitude = PNone.
Proof.
  intros H. pose proof (fetch_failure_None _ H) as Hnone.
  fold (fetch_weather session latitude longitude) in Hnone.
  rewrite fetch_weather_fetched in Hnone. congruence.
Qed.

Lemma fetched_payload session latitude longitude value :
  payload_temperature (session latitude longitude) value ->
  fetched session latitude longitude = value.
Proof.
  intros H. pose proof (payload_temperature_value _ _ H) as Hv.
  fold (fetch_weather session latitude longitude) in Hv.
  rewrite fetch_weather_fetched in Hv. congruence.
Qed.

(** C2, as stated, fails: Rome had a reading of 18.5 degrees, its fetch
    times out, and the batch leaves it without a reading. *)
Lemma failed_fetch_clears_reading : ~ failed_fetch_keeps_reading.
Proof.
  intros H.
  destruct (H noon rome_is_down [oslo; rome; kyiv] _ _ 1%nat rome
              (gather_refreshed _ _ _) eq_refl eq_refl)
    as (city' & Hcity & _ & Htemp).
  - apply transport_failure.
  - vm_compute in Hcity. inversion Hcity; subst. discriminate.
Qed.

(** C2, amended: when the fetch for a due city fails, the batch sets the
    city's timestamp to [now] and its temperature to [None], whatever
    reading it had; the other fields are kept. *)
Theorem failed_fetch_stamps_and_clears (now : datetime)
    (session : ClientSession) (cities cities' : list City.t)
    (made : list fetch_call) (i : nat) (city : City.t) :
  gather now session cities = Returns (cities', made) ->
  cities !! i = Some city ->
  refresh_due now city = true ->
  fetch_failure (session (City.latitude city) (City.longitude city)) ->
  cities' !! i = Some (store_reading city PNone now).
Proof.
  intros Hgather Hcity Hdue Hfail.
  rewrite gather_refreshed in Hgather. inversion Hgather; subst.
  rewrite lookup_map, Hcity. simpl. unfold refreshed.
  rewrite Hdue, (fetched_failure _ _ _ Hfail). reflexivity.
Qed.

Lemma failed_fetch_stamps_and_clears_witness :
  exists cities' made,
    gather noon rome_is_down [oslo; rome; kyiv] = Returns (cities', made) /\
    cities' !! 1%nat
    = Some (City.mk 2 "Rome" 41.5 12.5 PNone (Some noon) 1).
Proof.
  eexists _, _. split; [apply gather_refreshed|].
  apply (failed_fetch_stamps_and_clears noon rome_is_down [oslo; rome; kyiv]
           _ _ 1%nat rome (gather_refreshed _ _ _)).
  - reflexivity.
  - reflexivity.
  - apply transport_failure.
Defined.

(** C9: the batch has one [now], read before the loop starts.  While the
    loop runs the clock only moves forward, and at every moment each city
    carries either the timestamp it came with or [now]; when [gather] has
    returned, every due city carries [now], whether its fetch gave a
    reading or not and whenever its response arrived. *)
Theorem batch_has_one_timestamp (now : datetime) (session : ClientSession)
    (cities : list City.t) (s : loop_state) :
  loop_run now session cities s ->
  now <= clock s /\
  (forall i c0 c,
     cities !! i = Some c0 -> objects s !! i = Some c ->
     City.updated_at c = City.updated_at c0 \/
     refresh_due now c0 = true /\ City.updated_at c = Some now) /\
  (gather_done s ->
   forall i c0 c,
     cities !! i = Some c0 -> objects s !! i = Some c ->
     refresh_due now c0 = true -> City.updated_at c = Some now).
Proof.
  intros Hrun. pose proof (loop_inv_run now session cities s Hrun) as Hinv.
  destruct Hinv as [Hclock Hlt Hlo Htask _].
  split; [exact Hclock|split].
  - intros i c0 c Hc0 Hc.
    destruct (lookup_lt_is_Some_2 (tasks s) i) as [t Ht].
    { rewrite Hlt. eapply lookup_lt_Some; eauto. }
    destruct (Htask i c0 t Hc0 Ht) as (obj & Hobj & Hok).
    assert (obj = c) as -> by congruence.
    destruct t as [|lat lon| |e]; simpl in Hok.
    + left. congruence.
    + left. destruct Hok as [-> _]. reflexivity.
    + subst c. unfold refreshed. destruct (refresh_due now c0); auto.
    + destruct Hok.
  - intros Hdone i c0 c Hc0 Hc Hdue.
    destruct (loop_done_result now session cities s Hrun Hdone) as [Hobjs _].
    rewrite Hobjs, lookup_map, Hc0 in Hc. simpl in Hc.
    inversion Hc; subst. unfold refreshed. rewrite Hdue. reflexivity.
Qed.

Lemma batch_has_one_timestamp_witness :
  noon < clock worked_batch_end /\
  City.updated_at (store_reading rome PNone noon) = Some noon.
Proof.
  destruct (batch_has_one_timestamp noon rome_is_down [oslo; rome; kyiv]
              worked_batch_end worked_batch_run) as (_ & _ & H).
  split; [reflexivity|].
  apply (H worked_batch_done 1%nat rome _ eq_refl eq_refl eq_refl).
Defined.

(** ** The point invariant over the life of the database *)

Lemma add_City_stamped rows name latitude longitude uid :
  Forall reading_has_timestamp rows ->
  Forall reading_has_timestamp (add_City rows name latitude longitude uid).
Proof.
  intros H. unfold add_City. apply Forall_app. split; [exact H|].
  constructor; [|constructor]. intros Hreading. destruct Hreading.
  reflexivity.
Qed.

Lemma add_defaults_stamped rows defaults uid :
  Forall reading_has_timestamp rows ->
  Forall reading_has_timestamp (add_defaults rows defaults uid).
Proof.
  unfold add_defaults. revert rows.
  induction defaults as [|d defaults IH]; intros rows H; simpl; [exact H|].
  apply IH. apply add_City_stamped. exact H.
Qed.

Lemma filter_stamped (f : City.t -> bool) rows :
  Forall reading_has_timestamp rows ->
  Forall reading_has_timestamp (List.filter f rows).
Proof.
  intros H. apply List.Forall_forall. intros c Hc.
  apply filter_In in Hc as [Hc _].
  revert c Hc. apply List.Forall_forall. exact H.
Qed.

Lemma refreshed_stamped now session city :
  reading_has_timestamp city ->
  reading_has_timestamp (refreshed now session city).
Proof.
  unfold refreshed. destruct (refresh_due now city); [|auto].
  intros _ _. discriminate.
Qed.

Lemma commit_stamped objs rows :
  Forall reading_has_timestamp objs ->
  Forall reading_has_timestamp rows ->
  Forall reading_has_timestamp (commit_cities objs rows).
Proof.
  intros Hobjs Hrows. unfold commit_cities.
  apply List.Forall_forall. intros c Hc.
  apply in_map_iff in Hc as (row & <- & Hrow).
  destruct (List.find _ objs) as [o|] eqn:Hfind.
  - apply find_some in Hfind as [Ho _].
    revert o Ho. apply List.Forall_forall. exact Hobjs.
  - clear Hfind. revert row Hrow. apply List.Forall_forall. exact Hrows.
Qed.

Lemma db_step_stamped db db' :
  db_step db db' ->
  Forall reading_has_timestamp (cities db) ->
  Forall reading_has_timestamp (cities db').
Proof.
  intros Hstep H.
  destruct Hstep as
    [cookie name lat lon db r db' Heq
    |cookie city_id db r db' Heq
    |cookie db r db' Heq
    |cookie now session db r db' made Heq
    |rows db
    |hash_password username password db
    |verify_password username password db].
  - unfold add_city in Heq.
    destruct (get_current_user cookie db) as [u|]; simpl in Heq;
      [|discriminate].
    destruct (head _) in Heq; inversion Heq; subst; [exact H|].
    simpl. apply add_City_stamped. exact H.
  - unfold remove_city in Heq.
    destruct (get_current_user cookie db) as [u|]; simpl in Heq;
      [|discriminate].
    destruct (head _) in Heq; inversion Heq; subst; [|exact H].
    simpl. apply filter_stamped. exact H.
  - unfold reset_cities in Heq.
    destruct (get_current_user cookie db) as [u|]; simpl in Heq;
      [|discriminate].
    inversion Heq; subst. simpl.
    apply add_defaults_stamped, filter_stamped. exact H.
  - unfold update_weather in Heq.
    destruct (get_current_user cookie db) as [u|]; simpl in Heq;
      [|discriminate].
    rewrite gather_refreshed in Heq. simpl in Heq. inversion Heq; subst.
    simpl. apply commit_stamped; [|exact H].
    apply List.Forall_forall. intros c Hc.
    apply in_map_iff in Hc as (c0 & <- & Hc0).
    apply refreshed_stamped. apply filter_In in Hc0 as [Hc0 _].
    revert c0 Hc0. apply List.Forall_forall. exact H.
  - unfold populate_default_cities.
    destruct (default_cities db); exact H.
  - unfold register. destruct (head _); exact H.
  - unfold login. destruct (head _) as [u|]; [|exact H].
    destruct (negb _); [exact H|].
    destruct (head _); [exact H|].
    simpl. apply add_defaults_stamped. exact H.
Qed.

Lemma reachable_stamped db :
  reachable db -> Forall reading_has_timestamp (cities db).
Proof.
  unfold reachable.
  apply (rtc_ind_r (fun db => Forall reading_has_timestamp (cities db))
                   empty_db).
  - constructor.
  - intros y z _ Hstep IH. eapply db_step_stamped; eauto.
Qed.

Lemma worked_db_reachable : reachable worked_db.
Proof.
  unfold reachable.
  eapply rtc_l; [apply (step_register (fun p => p) "ann" "pw")|].
  eapply rtc_l; [apply (step_login String.eqb "ann" "pw")|].
  eapply rtc_l.
  { apply (step_add_city (Some 1) "Oslo" 59.5%float 10.75%float) with
      (r := RedirectResponse "/" 303)
      (db' := mkDb [User.mk 1 "ann" "pw" true]
                   [City.mk 1 "Oslo" 59.5 10.75 PNone None 1] []).
    reflexivity. }
  eapply rtc_l.
  { apply (step_add_city (Some 1) "Rome" 41.5%float 12.5%float) with
      (r := RedirectResponse "/" 303)
      (db' := mkDb [User.mk 1 "ann" "pw" true]
                   [City.mk 1 "Oslo" 59.5 10.75 PNone None 1;
                    City.mk 2 "Rome" 41.5 12.5 PNone None 1] []).
    reflexivity. }
  eapply rtc_l.
  { apply (step_update_weather (Some 1) noon rome_is_down) with
      (r := RedirectResponse "/" 303) (db' := worked_db)
      (calls := [mkCall 1 59.5 10.75; mkCall 2 41.5 12.5]).
    reflexivity. }
  apply rtc_refl.
Qed.

(** C3, as stated, fails: after a refresh in which Rome's fetch timed out,
    Rome has a timestamp and no reading. *)
Lemma timestamp_without_reading : ~ reading_iff_timestamp.
Proof.
  intros H.
  destruct (H worked_db worked_db_reachable
              (City.mk 2 "Rome" 41.5 12.5 PNone (Some noon) 1)) as [_ Hts].
  - simpl. auto.
  - apply Hts; [discriminate|reflexivity].
Qed.

(** C3, amended: in every reachable database a city that has a reading has
    a timestamp, and a refresh attempt on a due city always sets the
    timestamp, to [now], together with whatever the fetch returned, be it a
    reading or [None]. *)
Theorem reading_implies_timestamp (db : Db) :
  reachable db ->
  (forall city, In city (cities db) -> reading_has_timestamp city) /\
  (forall now session city city' made,
     refresh_due now city = true ->
     update_city now session city = Returns (city', made) ->
     City.updated_at city' = Some now /\
     fetch_weather session (City.latitude city) (City.longitude city)
     = Returns (City.temperature city')).
Proof.
  intros Hreach. split.
  - apply List.Forall_forall. apply reachable_stamped. exact Hreach.
  - intros now session city city' made Hdue Hupd.
    rewrite update_city_refreshed in Hupd. inversion Hupd; subst.
    unfold refreshed. rewrite Hdue. simpl.
    split; [reflexivity|apply fetch_weather_fetched].
Qed.

Lemma reading_implies_timestamp_witness :
  reading_has_timestamp
    (City.mk 1 "Oslo" 59.5 10.75 (PFloat 21.5) (Some noon) 1).
Proof.
  destruct (reading_implies_timestamp worked_db worked_db_reachable)
    as [H _].
  apply H. simpl. auto.
Defined.

(** ** The refresh handler *)

Lemma update_weather_refreshed now session db user :
  update_weather now session db (Some user)
  = Returns
      (RedirectResponse "/" 303,
       set_cities db
         (commit_cities
            (map (refreshed now session)
                 (List.filter (fun c => City.user_id c =? User.id user)
                              (cities db)))
            (cities db)),
       map call_of
           (List.filter (refresh_due now)
              (List.filter (fun c => City.user_id c =? User.id user)
                           (cities db)))).
Proof.
  unfold update_weather. simpl. rewrite gather_refreshed. reflexivity.
Qed.

Lemma same_id_same_row (rows : list City.t) (a b : City.t) :
  NoDup (map City.id rows) -> In a rows -> In b rows ->
  City.id a = City.id b -> a = b.
Proof.
  induction rows as [|c rows IH]; simpl; [intros _ []|].
  intros Hnd Ha Hb Hid. apply NoDup_cons in Hnd as [Hc Hnd].
  rewrite list_elem_of_In in Hc.
  destruct Ha as [->|Ha], Hb as [->|Hb]; auto.
  - destruct Hc. rewrite Hid. apply in_map. exact Hb.
  - destruct Hc. rewrite <- Hid. apply in_map. exact Ha.
Qed.

Lemma find_id_absent (g : City.t -> City.t) (f : City.t -> bool)
    (rows : list City.t) (k : Z) :
  (forall c, City.id (g c) = City.id c) ->
  ~ In k (map City.id rows) ->
  List.find (fun o => City.id o =? k) (map g (List.filter f rows)) = None.
Proof.
  intros Hg. induction rows as [|c rows IH]; simpl; [reflexivity|].
  intros Hk. destruct (f c); simpl; [|tauto].
  rewrite Hg. destruct (Z.eqb_spec (City.id c) k); tauto.
Qed.

Lemma find_own_object (g : City.t -> City.t) (f : City.t -> bool)
    (rows : list City.t) (row : City.t) :
  (forall c, City.id (g c) = City.id c) ->
  NoDup (map City.id rows) -> In row rows ->
  List.find (fun o => City.id o =? City.id row) (map g (List.filter f rows))
  = if f row then Some (g row) else None.
Proof.
  intros Hg. induction rows as [|c rows IH]; simpl; [intros _ []|].
  intros Hnd Hrow. apply NoDup_cons in Hnd as [Hc Hnd].
  rewrite list_elem_of_In in Hc. destruct Hrow as [->|Hrow].
  - destruct (f row); simpl.
    + rewrite Hg, Z.eqb_refl. reflexivity.
    + apply find_id_absent; assumption.
  - assert (Hne : City.id c <> City.id row).
    { intros Heq. apply Hc. rewrite Heq. apply in_map. exact Hrow. }
    destruct (f c); simpl; [|auto].
    rewrite Hg. apply Z.eqb_neq in Hne. rewrite Hne. auto.
Qed.

(** With ids that are a key, the commit puts each refreshed object in the
    place of its own row. *)
Lemma commit_refreshed now session (f : City.t -> bool) (rows : list City.t) :
  NoDup (map City.id rows) ->
  commit_cities (map (refreshed now session) (List.filter f rows)) rows
  = map (fun c => if f c then refreshed now session c else c) rows.
Proof.
  intros Hnd. unfold commit_cities. apply map_ext_in. intros row Hrow.
  rewrite (find_own_object (refreshed now session) f rows row);
    [destruct (f row); reflexivity| |exact Hnd|exact Hrow].
  intros c. apply refreshed_frame.
Qed.

(** C5: a refresh leaves users and default cities alone and keeps every
    city row in its place with its id, name, coordinates and owner; a city
    that is not due, or that belongs to another user, is left exactly as it
    was, and no network call is made for it. *)
Theorem skipped_city_untouched (now : datetime) (session : ClientSession)
    (db db' : Db) (user : User.t) (r : response) (made : list fetch_call) :
  NoDup (map City.id (cities db)) ->
  update_weather now session db (Some user) = Returns (r, db', made) ->
  users db' = users db /\
  default_cities db' = default_cities db /\
  length (cities db') = length (cities db) /\
  forall i city,
    cities db !! i = Some city ->
    exists city',
      cities db' !! i = Some city' /\
      City.id city' = City.id city /\
      City.name city' = City.name city /\
      City.latitude city' = City.latitude city /\
      City.longitude city' = City.longitude city /\
      City.user_id city' = City.user_id city /\
      (refresh_due now city = false \/ City.user_id city <> User.id user ->
       city' = city /\
       forall call, In call made -> call_city call <> City.id city).
Proof.
  intros Hnd Hupd. rewrite update_weather_refreshed in Hupd.
  inversion Hupd; subst; clear Hupd. simpl.
  rewrite (commit_refreshed now session _ _ Hnd).
  split; [reflexivity|split; [reflexivity|split; [apply length_map|]]].
  intros i city Hcity. eexists. split.
  { rewrite lookup_map, Hcity. reflexivity. }
  simpl. pose proof (refreshed_frame now session city) as Hframe.
  assert (Hcalls : forall call,
            In call
               (map call_of
                  (List.filter (refresh_due now)
                     (List.filter
                        (fun c => City.user_id c =? User.id user)
                        (cities db)))) ->
            call_city call = City.id city ->
            refresh_due now city = true /\
            (City.user_id city =? User.id user) = true).
  { intros call Hcall Hid.
    apply in_map_iff in Hcall as (c & <- & Hc).
    apply filter_In in Hc as [Hc Hcdue]. apply filter_In in Hc as [Hc Hcu].
    assert (c = city) as <-; [|auto].
    apply (same_id_same_row (cities db)); auto.
    apply list_elem_of_In. eapply list_elem_of_lookup_2. exact Hcity. }
  destruct (City.user_id city =? User.id user) eqn:Huser.
  - destruct Hframe as (-> & -> & -> & -> & ->).
    do 5 (split; [reflexivity|]).
    intros [Hdue|Hother]; [|apply Z.eqb_eq in Huser; tauto].
    split; [unfold refreshed; rewrite Hdue; reflexivity|].
    intros call Hcall Hid. destruct (Hcalls call Hcall Hid). congruence.
  - do 5 (split; [reflexivity|]).
    intros _. split; [reflexivity|].
    intros call Hcall Hid. destruct (Hcalls call Hcall Hid). congruence.
Qed.

Lemma skipped_city_untouched_witness :
  exists r db' made,
    update_weather noon rome_is_down mixed_db (Some ann)
    = Returns (r, db', made) /\
    cities db' !! 0%nat = cities mixed_db !! 0%nat /\
    cities db' !! 2%nat = cities mixed_db !! 2%nat.
Proof.
  eexists _, _, _. split; [apply update_weather_refreshed|].
  assert (Hkey : NoDup (map City.id (cities mixed_db))).
  { apply NoDup_ListNoDup. simpl. repeat constructor; simpl; lia. }
  destruct (skipped_city_untouched noon rome_is_down mixed_db _ ann _ _ Hkey
              (update_weather_refreshed noon rome_is_down mixed_db ann))
    as (_ & _ & _ & H).
  split.
  - destruct (H 0%nat _ eq_refl) as (city' & -> & _ & _ & _ & _ & _ & Hsame).
    destruct Hsame as [-> _]; [left; reflexivity|reflexivity].
  - destruct (H 2%nat _ eq_refl) as (city' & -> & _ & _ & _ & _ & _ & Hsame).
    destruct Hsame as [-> _]; [right; simpl; lia|reflexivity].
Defined.

Lemma filter_none {A} (f : A -> bool) (l : list A) :
  (forall x, In x l -> f x = false) -> List.filter f l = [].
Proof.
  induction l as [|a l IH]; simpl; [reflexivity|].
  intros H. rewrite (H a (or_introl eq_refl)). apply IH.
  intros x Hx. apply H. right. exact Hx.
Qed.




(** The handler computes the batch sequentially; the event loop gives the
    same database and the same calls under every schedule. *)
Lemma update_weather_any_schedule now session db user r db' made s :
  update_weather now session db (Some user) = Returns (r, db', made) ->
  loop_run now session
           (List.filter (fun c => City.user_id c =? User.id user) (cities db))
           s ->
  gather_done s ->
  db' = set_cities db (commit_cities (objects s) (cities db)) /\
  calls s ≡ₚ made.
Proof.
  intros Hupd Hrun Hdone. rewrite update_weather_refreshed in Hupd.
  inversion Hupd; subst; clear Hupd.
  destruct (loop_done_result _ _ _ _ Hrun Hdone) as [-> Hcalls].
  split; [reflexivity|exact Hcalls].
Qed.

(** ** City ids are a key *)

Lemma next_id_above (ids : list Z) (k : Z) : In k ids -> k < next_id ids.
Proof.
  unfold next_id. induction ids as [|a ids IH]; simpl; [intros []|].
  intros [->|Hk]; [lia|]. specialize (IH Hk). lia.
Qed.

Lemma add_City_key rows name latitude longitude uid :
  NoDup (map City.id rows) ->
  NoDup (map City.id (add_City rows name latitude longitude uid)).
Proof.
  intros Hnd. unfold add_City. rewrite map_app. simpl.
  apply NoDup_app. split; [exact Hnd|split].
  - intros k Hk Hnew. apply list_elem_of_In in Hk.
    apply next_id_above in Hk.
    apply list_elem_of_singleton in Hnew. lia.
  - apply NoDup_singleton.
Qed.

Lemma add_defaults_key rows defaults uid :
  NoDup (map City.id rows) ->
  NoDup (map City.id (add_defaults rows defaults uid)).
Proof.
  unfold add_defaults. revert rows.
  induction defaults as [|d defaults IH]; intros rows H; simpl; [exact H|].
  apply IH. apply add_City_key. exact H.
Qed.

Lemma filter_key (f : City.t -> bool) rows :
  NoDup (map City.id rows) -> NoDup (map City.id (List.filter f rows)).
Proof.
  induction rows as [|c rows IH]; simpl; [auto|].
  intros Hnd. apply NoDup_cons in Hnd as [Hc Hnd].
  destruct (f c); simpl; [|auto].
  apply NoDup_cons. split; [|auto].
  intros Hin. apply Hc. apply list_elem_of_In in Hin.
  apply list_elem_of_In. apply in_map_iff in Hin as (x & Hx & Hin).
  apply in_map_iff. exists x. split; [exact Hx|].
  apply filter_In in Hin. tauto.
Qed.

Lemma commit_ids objs rows :
  map City.id (commit_cities objs rows) = map City.id rows.
Proof.
  unfold commit_cities. rewrite map_map. apply map_ext. intros row.
  destruct (List.find _ objs) as [o|] eqn:Hfind; [|reflexivity].
  apply find_some in Hfind as [_ Hid]. apply Z.eqb_eq. exact Hid.
Qed.

Lemma db_step_key db db' :
  db_step db db' ->
  NoDup (map City.id (cities db)) -> NoDup (map City.id (cities db')).
Proof.
  intros Hstep H.
  destruct Hstep as
    [cookie name lat lon db r db' Heq
    |cookie city_id db r db' Heq
    |cookie db r db' Heq
    |cookie now session db r db' made Heq
    |rows db
    |hash_password username password db
    |verify_password username password db].
  - unfold add_city in Heq.
    destruct (get_current_user cookie db) as [u|]; simpl in Heq;
      [|discriminate].
    destruct (head _) in Heq; inversion Heq; subst; [exact H|].
    simpl. apply add_City_key. exact H.
  - unfold remove_city in Heq.
    destruct (get_current_user cookie db) as [u|]; simpl in Heq;
      [|discriminate].
    destruct (head _) in Heq; inversion Heq; subst; [|exact H].
    simpl. apply filter_key. exact H.
  - unfold reset_cities in Heq.
    destruct (get_current_user cookie db) as [u|]; simpl in Heq;
      [|discriminate].
    inversion Heq; subst. simpl.
    apply add_defaults_key, filter_key. exact H.
  - destruct (get_current_user cookie db) as [u|]; [|discriminate].
    rewrite update_weather_refreshed in Heq. inversion Heq; subst.
    simpl. rewrite commit_ids. exact H.
  - unfold populate_default_cities.
    destruct (default_cities db); exact H.
  - unfold register. destruct (head _); exact H.
  - unfold login. destruct (head _) as [u|]; [|exact H].
    destruct (negb _); [exact H|].
    destruct (head _); [exact H|].
    simpl. apply add_defaults_key. exact H.
Qed.

(** X16: in every reachable database the city ids are pairwise distinct. *)
Lemma reachable_key db : reachable db -> NoDup (map City.id (cities db)).
Proof.
  unfold reachable.
  apply (rtc_ind_r (fun db => NoDup (map City.id (cities db))) empty_db).
  - constructor.
  - intros y z _ Hstep IH. eapply db_step_key; eauto.
Qed.

(** ** The refresh handler and the Float column *)

Lemma mapM_outcome_ext_in {A B} (f g : A -> outcome B) (l : list A) :
  (forall x, In x l -> f x = g x) -> mapM_outcome f l = mapM_outcome g l.
Proof.
  induction l as [|a l IH]; simpl; [reflexivity|].
  intros H. rewrite (H a (or_introl eq_refl)), IH; [reflexivity|].
  intros x Hx. apply H. right. exact Hx.
Qed.

Lemma mapM_outcome_lookup {A B} (f : A -> outcome B) (l : list A)
    (l' : list B) :
  mapM_outcome f l = Returns l' ->
  length l' = length l /\
  forall i x, l !! i = Some x ->
    exists y, l' !! i = Some y /\ f x = Returns y.
Proof.
  revert l'. induction l as [|a l IH]; simpl; intros l' H.
  - inversion H. split; [reflexivity|]. intros i x Hx.
    rewrite lookup_nil in Hx. discriminate.
  - destruct (f a) as [b|e] eqn:Hfa; simpl in H; [|discriminate].
    destruct (mapM_outcome f l) as [bs|e]; simpl in H; [|discriminate].
    inversion H; subst. destruct (IH bs eq_refl) as [Hlen Hlook].
    split; [simpl; congruence|].
    intros [|i] x Hx; simpl in *.
    + inversion Hx; subst. eauto.
    + apply Hlook. exact Hx.
Qed.

Lemma mapM_outcome_returns {A B} (f : A -> outcome B) (l : list A) :
  (forall x, In x l -> exists y, f x = Returns y) ->
  exists l', mapM_outcome f l = Returns l'.
Proof.
  induction l as [|a l IH]; simpl; [eauto|].
  intros H. destruct (H a (or_introl eq_refl)) as [b ->].
  destruct IH as [bs ->]; [intros x Hx; apply H; right; exact Hx|].
  simpl. eauto.
Qed.

(** With ids that are a key, the commit writes each fetched city to its own
    row. *)
Lemma commit_sqlite_stored str_float now session uid (rows : list City.t) :
  NoDup (map City.id rows) ->
  commit_cities_sqlite str_float
    (map (refreshed now session)
         (List.filter (fun c => City.user_id c =? uid) rows))
    (map call_of
         (List.filter (refresh_due now)
            (List.filter (fun c => City.user_id c =? uid) rows)))
    rows
  = mapM_outcome (stored_row str_float now session uid) rows.
Proof.
  intros Hnd. unfold commit_cities_sqlite. apply mapM_outcome_ext_in.
  intros row Hrow.
  rewrite (find_own_object (refreshed now session) _ rows row);
    [|intros c; apply refreshed_frame|exact Hnd|exact Hrow].
  unfold stored_row.
  destruct (City.user_id row =? uid) eqn:Huser; simpl; [|reflexivity].
  destruct (refreshed_frame now session row) as (Hid & _). rewrite Hid.
  destruct (refresh_due now row) eqn:Hdue.
  - assert (Hmade : existsb (fun call => call_city call =? City.id row)
                      (map call_of
                         (List.filter (refresh_due now)
                            (List.filter (fun c => City.user_id c =? uid)
                                         rows))) = true).
    { apply existsb_exists. exists (call_of row). split.
      - apply in_map. apply filter_In. split; [|exact Hdue].
        apply filter_In. auto.
      - simpl. apply Z.eqb_refl. }
    rewrite Hmade. unfold refreshed. rewrite Hdue. simpl.
    destruct (Float_bind _ _); reflexivity.
  - destruct (existsb _ _) eqn:Hmade; [|reflexivity].
    apply existsb_exists in Hmade as (call & Hcall & Hsame).
    apply in_map_iff in Hcall as (c & <- & Hc).
    apply filter_In in Hc as [Hc Hcdue]. apply filter_In in Hc as [Hc _].
    apply Z.eqb_eq in Hsame. simpl in Hsame.
    assert (c = row) by (apply (same_id_same_row rows); auto).
    congruence.
Qed.

Lemma update_weather_sqlite_stored str_float now session db user :
  NoDup (map City.id (cities db)) ->
  update_weather_sqlite str_float now session db (Some user)
  = (rows <~ mapM_outcome (stored_row str_float now session (User.id user))
                          (cities db);
     Returns (RedirectResponse "/" 303, set_cities db rows,
              map call_of (List.filter (refresh_due now)
                                       (cities_of (User.id user) db)))).
Proof.
  intros Hnd. unfold update_weather_sqlite. simpl.
  rewrite gather_refreshed. simpl.
  rewrite (commit_sqlite_stored _ _ _ _ _ Hnd). reflexivity.
Qed.

Example Float_bind_values :
  Float_bind (fun _ => None) (PFloat 21.5) = Returns (PFloat 21.5) /\
  Float_bind (fun _ => None) (PInt 21) = Returns (PFloat 21) /\
  Float_bind (fun _ => None) (PFloat nan) = Returns PNone /\
  Float_bind (fun _ => None) (PFloat (-0)) = Returns (PFloat 0) /\
  Float_bind (fun _ => None) (PInt (10 ^ 400)) = Raises StatementError /\
  Float_bind (fun _ => None) (PList []) = Raises StatementError.
Proof. repeat split; reflexivity. Qed.

Example update_weather_sqlite_garbled :
  update_weather_sqlite (fun _ => None) noon rome_is_garbled batch_db
                        (Some ann)
  = Raises StatementError.
Proof. reflexivity. Qed.

(** C4, as stated, fails: in a batch of three due cities where Rome's
    response carries a temperature field that is not a number, the commit
    raises and neither Oslo nor Kyiv receives its reading. *)
Lemma garbled_reading_cancels_batch : ~ spec_failures_are_isolated.
Proof.
  intros H.
  destruct (H (fun _ => None) noon rome_is_garbled batch_db ann)
    as (r & db' & made & Heq & _).
  - apply NoDup_ListNoDup. simpl. repeat constructor; simpl; lia.
  - simpl. intros c [<-|[<-|[<-|[]]]] _.
    + right. exists 21.5%float. eexists _, _. repeat split; reflexivity.
    + left. right. exists (PList []). split; [|reflexivity].
      eexists _, _. repeat split; reflexivity.
    + right. exists 21.5%float. eexists _, _. repeat split; reflexivity.
  - vm_compute in Heq. discriminate.
Qed.

(** C4, amended: failures that the fetch reports are isolated.  Under
    every schedule no [update_city] task raises, [gather] can always run to
    its return, and what it returns is the batch of the sequential run.  In
    a batch where each due city either has a failed fetch or a response
    with a float temperature, the refresh handler returns with one call
    made per due city and every row in place; each due city then holds the
    batch's [now] as timestamp and the outcome of its own fetch: no
    temperature where the fetch failed, the reading as the Float column
    keeps it where it gave one.  (A response whose temperature field is
    not a number is outside this statement.) *)
Theorem reported_failures_are_isolated
    (str_float : string -> option float) (now : datetime)
    (session : ClientSession) (db : Db) (user : User.t) :
  NoDup (map City.id (cities db)) ->
  (forall c, In c (cities_of (User.id user) db) -> refresh_due now c = true ->
     fetch_failure (session (City.latitude c) (City.longitude c)) \/
     exists t,
       payload_temperature (session (City.latitude c) (City.longitude c))
                           (PFloat t)) ->
  (forall s,
     loop_run now session (cities_of (User.id user) db) s ->
     (forall i e, tasks s !! i <> Some (Failed e)) /\
     (exists s', rtc (loop_step now session) s s' /\ gather_done s') /\
     (gather_done s ->
      exists made,
        gather now session (cities_of (User.id user) db)
        = Returns (objects s, made) /\
        calls s ≡ₚ made)) /\
  exists r db' made,
    update_weather_sqlite str_float now session db (Some user)
    = Returns (r, db', made) /\
    length (cities db') = length (cities db) /\
    forall i city,
      cities db !! i = Some city ->
      City.user_id city = User.id user ->
      refresh_due now city = true ->
      In (call_of city) made /\
      exists city',
        cities db' !! i = Some city' /\
        City.updated_at city' = Some now /\
        City.id city' = City.id city /\
        City.name city' = City.name city /\
        City.latitude city' = City.latitude city /\
        City.longitude city' = City.longitude city /\
        City.user_id city' = City.user_id city /\
        (fetch_failure (session (City.latitude city) (City.longitude city)) ->
         City.temperature city' = PNone) /\
        (forall t,
           payload_temperature
             (session (City.latitude city) (City.longitude city))
             (PFloat t) ->
           City.temperature city' = sqlite_REAL t).
Proof.
  intros Hnd Hok. split.
  { intros s Hrun. split; [|split].
    - intros i e. eapply loop_never_fails. exact Hrun.
    - eapply loop_completes. exact Hrun.
    - intros Hdone.
      destruct (loop_done_result _ _ _ _ Hrun Hdone) as [Hobjs Hcalls].
      eexists. split; [rewrite gather_refreshed, Hobjs; reflexivity|].
      exact Hcalls. }
  rewrite (update_weather_sqlite_stored _ _ _ _ _ Hnd).
  destruct (mapM_outcome_returns
              (stored_row str_float now session (User.id user)) (cities db))
    as [rows Hrows].
  { intros row Hrow. unfold stored_row.
    destruct (City.user_id row =? User.id user) eqn:Huser; simpl; [|eauto].
    destruct (refresh_due now row) eqn:Hdue; [|eauto].
    destruct (Hok row) as [Hfail|(t & Ht)]; [|exact Hdue| |].
    - apply filter_In. auto.
    - rewrite (fetched_failure _ _ _ Hfail). simpl. eauto.
    - rewrite (fetched_payload _ _ _ _ Ht). simpl. eauto. }
  rewrite Hrows. simpl.
  destruct (mapM_outcome_lookup _ _ _ Hrows) as [Hlen Hlook].
  eexists _, _, _. split; [reflexivity|]. split; [exact Hlen|].
  intros i city Hcity Huser Hdue. split.
  { apply in_map. apply filter_In. split; [|exact Hdue].
    apply filter_In. split; [|apply Z.eqb_eq; exact Huser].
    apply list_elem_of_In. eapply list_elem_of_lookup_2. exact Hcity. }
  destruct (Hlook i city Hcity) as (city' & Hcity' & Hstored).
  exists city'. split; [exact Hcity'|].
  unfold stored_row in Hstored.
  rewrite Huser, Z.eqb_refl, Hdue in Hstored. simpl in Hstored.
  destruct (Float_bind str_float
              (fetched session (City.latitude city) (City.longitude city)))
    as [stored|e] eqn:Hbind; simpl in Hstored; [|discriminate].
  inversion Hstored; subst city'. simpl.
  do 6 (split; [reflexivity|]). split.
  - intros Hfail. rewrite (fetched_failure _ _ _ Hfail) in Hbind.
    simpl in Hbind. congruence.
  - intros t Ht. rewrite (fetched_payload _ _ _ _ Ht) in Hbind.
    simpl in Hbind. congruence.
Qed.

Lemma reported_failures_are_isolated_witness :
  exists r db' made,
    update_weather_sqlite (fun _ => None) noon rome_is_down batch_db
                          (Some ann)
    = Returns (r, db', made) /\
    cities db' !! 0%nat
    = Some (City.mk 1 "Oslo" 59.5 10.75 (PFloat 21.5) (Some noon) 1) /\
    cities db' !! 1%nat
    = Some (City.mk 2 "Rome" 41.5 12.5 PNone (Some noon) 1) /\
    cities db' !! 2%nat
    = Some (City.mk 3 "Kyiv" 50.5 30.5 (PFloat 21.5) (Some noon) 1).
Proof.
  destruct (reported_failures_are_isolated (fun _ => None) noon rome_is_down
              batch_db ann) as (_ & r & db' & made & Heq & _ & H).
  - apply NoDup_ListNoDup. simpl. repeat constructor; simpl; lia.
  - simpl. intros c [<-|[<-|[<-|[]]]] _.
    + right. exists 21.5%float. eexists _, _. repeat split; reflexivity.
    + left. apply transport_failure.
    + right. exists 21.5%float. eexists _, _. repeat split; reflexivity.
  - exists r, db', made. split; [exact Heq|].
    assert (Hgood : forall city,
              PrimFloat.eqb (City.latitude city) 41.5 = false ->
              payload_temperature
                (rome_is_down (City.latitude city) (City.longitude city))
                (PFloat 21.5)).
    { intros city Hlat. unfold rome_is_down. rewrite Hlat.
      eexists _, _. repeat split; reflexivity. }
    split; [|split].
    + destruct (H 0%nat oslo eq_refl eq_refl eq_refl)
        as (_ & [i n la lo t u o]
              & -> & Hu & Hi & Hn & Hla & Hlo & Ho & _ & Ht).
      simpl in *. rewrite (Ht 21.5%float (Hgood oslo eq_refl)).
      subst. reflexivity.
    + destruct (H 1%nat rome eq_refl eq_refl eq_refl)
        as (_ & [i n la lo t u o]
              & -> & Hu & Hi & Hn & Hla & Hlo & Ho & Ht & _).
      simpl in *. rewrite (Ht (transport_failure _)).
      subst. reflexivity.
    + destruct (H 2%nat kyiv eq_refl eq_refl eq_refl)
        as (_ & [i n la lo t u o]
              & -> & Hu & Hi & Hn & Hla & Hlo & Ho & _ & Ht).
      simpl in *. rewrite (Ht 21.5%float (Hgood kyiv eq_refl)).
      subst. reflexivity.
Defined.

(** * Further properties of the handlers *)

(** ** Adding and removing a city *)

Lemma head_filter_None_inv {A} (f : A -> bool) (l : list A) :
  head (List.filter f l) = None -> forall x, In x l -> f x = false.
Proof.
  induction l as [|a l IH]; simpl; [intros _ x []|].
  destruct (f a) eqn:Hfa; simpl; [discriminate|].
  intros H x [<-|Hx]; auto.
Qed.

Lemma set_cities_same db : set_cities db (cities db) = db.
Proof. destruct db. reflexivity. Qed.

Lemma add_city_new name latitude longitude db user :
  (forall c, In c (cities db) -> City.user_id c = User.id user ->
             City.name c <> name) ->
  add_city name latitude longitude db (Some user)
  = Returns (RedirectResponse "/" 303,
             set_cities db
               (add_City (cities db) name latitude longitude (User.id user))).
Proof.
  intros Hfresh. unfold add_city. simpl.
  rewrite head_filter_None; [reflexivity|].
  intros c Hc. apply andb_false_iff.
  destruct (Z.eqb_spec (City.user_id c) (User.id user)) as [Hu|Hu]; [|auto].
  left. apply String.eqb_neq. auto.
Qed.

(** X1: adding a city under a name the user does not have yet, with
    coordinates that a REAL column keeps as they are (no NaN, no negative
    zero), appends one row and changes nothing else: the row has the given
    name and coordinates, the user as owner, no temperature and no
    timestamp, and an id above every id in the table. *)
Theorem add_city_fresh (name : string) (latitude longitude : float)
    (db : Db) (user : User.t) :
  sqlite_REAL latitude = PFloat latitude ->
  sqlite_REAL longitude = PFloat longitude ->
  (forall c, In c (cities db) -> City.user_id c = User.id user ->
             City.name c <> name) ->
  exists city,
    add_city name latitude longitude db (Some user)
    = Returns (RedirectResponse "/" 303,
               set_cities db (cities db ++ [city])) /\
    City.name city = name /\
    City.latitude city = latitude /\
    City.longitude city = longitude /\
    City.user_id city = User.id user /\
    City.temperature city = PNone /\
    City.updated_at city = None /\
    (forall c, In c (cities db) -> City.id c < City.id city).
Proof.
  intros _ _ Hfresh. eexists. split; [apply add_city_new; exact Hfresh|].
  simpl. do 6 (split; [reflexivity|]).
  intros c Hc. apply next_id_above. apply in_map. exact Hc.
Qed.

Lemma add_city_fresh_witness :
  exists city,
    add_city "Kyiv" 50.5 30.5 unrefreshed_db (Some ann)
    = Returns (RedirectResponse "/" 303,
               set_cities unrefreshed_db (cities unrefreshed_db ++ [city])) /\
    City.id city = 3.
Proof.
  destruct (add_city_fresh "Kyiv" 50.5 30.5 unrefreshed_db ann)
    as (city & Heq & _ & _ & _ & _ & _ & _ & _).
  - reflexivity.
  - reflexivity.
  - simpl. intros c [<-|[<-|[]]] _; discriminate.
  - exists city. split; [exact Heq|].
    vm_compute in Heq. inversion Heq. reflexivity.
Defined.

Lemma filter_app_one {A} (f : A -> bool) (l : list A) (x : A) :
  List.filter f (l ++ [x]) = List.filter f l ++ (if f x then [x] else []).
Proof. rewrite List.filter_app. reflexivity. Qed.

Lemma filter_all {A} (f : A -> bool) (l : list A) :
  (forall x, In x l -> f x = true) -> List.filter f l = l.
Proof.
  induction l as [|a l IH]; simpl; [reflexivity|].
  intros H. rewrite (H a (or_introl eq_refl)). f_equal. apply IH.
  intros x Hx. apply H. right. exact Hx.
Qed.

(** X2: [add_city] keeps the names of each user's cities pairwise distinct,
    whether it adds the city or rejects it. *)
Theorem add_city_keeps_names_distinct (name : string)
    (latitude longitude : float) (db db' : Db) (user : User.t)
    (r : response) (uid : Z) :
  add_city name latitude longitude db (Some user) = Returns (r, db') ->
  NoDup (map City.name (cities_of uid db)) ->
  NoDup (map City.name (cities_of uid db')).
Proof.
  unfold add_city. simpl.
  destruct (head _) as [c|] eqn:Hhead; intros Heq Hnd;
    inversion Heq; subst; clear Heq; [exact Hnd|].
  pose proof (head_filter_None_inv _ _ Hhead) as Hfresh. simpl in Hfresh.
  unfold cities_of, add_City. simpl. rewrite filter_app_one. simpl.
  destruct (Z.eqb_spec (User.id user) uid) as [<-|Hne];
    [|rewrite app_nil_r; exact Hnd].
  rewrite map_app. simpl. apply NoDup_app. split; [exact Hnd|split].
  - intros n Hn Hnew. apply list_elem_of_singleton in Hnew. subst n.
    apply list_elem_of_In in Hn. apply in_map_iff in Hn as (c & Hname & Hc).
    apply filter_In in Hc as [Hc Hu]. specialize (Hfresh c Hc).
    rewrite Hu, andb_true_r in Hfresh. apply String.eqb_neq in Hfresh. auto.
  - apply NoDup_singleton.
Qed.

Lemma add_city_keeps_names_distinct_witness :
  NoDup (map City.name
             (cities_of 1
                (set_cities unrefreshed_db
                   (add_City (cities unrefreshed_db) "Kyiv" 50.5 30.5 1)))).
Proof.
  apply (add_city_keeps_names_distinct "Kyiv" 50.5 30.5 unrefreshed_db _ ann
           (RedirectResponse "/" 303) 1 eq_refl).
  apply NoDup_ListNoDup. simpl.
  repeat constructor; simpl; intros H; repeat destruct H as [H|H];
    try discriminate; exact H.
Defined.

(** X3: removing a city id that is not in the table, or that belongs to
    another user, is a silent no-op when the id fits a signed 64-bit
    integer: the redirect is returned and the database is unchanged.  For
    an id outside that range the query raises [OverflowError]. *)
Theorem remove_city_not_owned (city_id : Z) (db : Db) (user : User.t) :
  (forall c, In c (cities db) -> City.id c = city_id ->
             City.user_id c <> User.id user) ->
  remove_city_sqlite city_id db (Some user)
  = if sqlite_int city_id
    then Returns (RedirectResponse "/" 303, db)
    else Raises OverflowError.
Proof.
  intros Hother. unfold remove_city_sqlite, bind_int. simpl.
  destruct (sqlite_int city_id); [|reflexivity]. simpl.
  rewrite head_filter_None; [reflexivity|].
  intros c Hc. apply andb_false_iff.
  destruct (Z.eqb_spec (City.id c) city_id) as [Hid|Hid]; [|auto].
  right. apply Z.eqb_neq. auto.
Qed.

Lemma remove_city_not_owned_witness :
  remove_city_sqlite 3 mixed_db (Some ann)
  = Returns (RedirectResponse "/" 303, mixed_db) /\
  remove_city_sqlite 9 mixed_db (Some ann)
  = Returns (RedirectResponse "/" 303, mixed_db) /\
  remove_city_sqlite (2 ^ 63) mixed_db (Some ann) = Raises OverflowError.
Proof.
  split; [|split].
  - apply (remove_city_not_owned 3 mixed_db ann).
    simpl. intros c [<-|[<-|[<-|[]]]]; simpl; lia.
  - apply (remove_city_not_owned 9 mixed_db ann).
    simpl. intros c [<-|[<-|[<-|[]]]]; simpl; lia.
  - apply (remove_city_not_owned (2 ^ 63) mixed_db ann).
    simpl. intros c [<-|[<-|[<-|[]]]]; simpl; lia.
Defined.

(** X4: removing a city the user owns deletes the rows with that id and no
    other: the table afterwards is the old one, in order, without them. *)
Theorem remove_city_owned (city_id : Z) (db : Db) (user : User.t)
    (city : City.t) :
  In city (cities db) ->
  City.id city = city_id ->
  City.user_id city = User.id user ->
  exists rows,
    remove_city city_id db (Some user)
    = Returns (RedirectResponse "/" 303, set_cities db rows) /\
    rows = List.filter (fun r => negb (City.id r =? city_id)) (cities db) /\
    (forall r, In r rows <-> In r (cities db) /\ City.id r <> city_id).
Proof.
  intros Hin Hid Huser. unfold remove_city. simpl.
  destruct (head_filter_In
              (fun c => (City.id c =? city_id)
                        && (City.user_id c =? User.id user))
              (cities db) city Hin) as [found Hfound].
  { rewrite Hid, Huser, !Z.eqb_refl. reflexivity. }
  rewrite Hfound.
  assert (Hfid : City.id found = city_id).
  { destruct (cities db) as [|c0 rows0] eqn:Hrows; [discriminate|].
    rewrite <- Hrows in Hfound.
    assert (Hmem : In found
              (List.filter (fun c => (City.id c =? city_id)
                                     && (City.user_id c =? User.id user))
                           (cities db))).
    { destruct (List.filter _ (cities db)); [discriminate|].
      inversion Hfound. left. reflexivity. }
    apply filter_In in Hmem as [_ Hp]. apply andb_true_iff in Hp as [Hp _].
    apply Z.eqb_eq. exact Hp. }
  eexists. split; [reflexivity|]. rewrite Hfid. split; [reflexivity|].
  intros r. rewrite filter_In, negb_true_iff, Z.eqb_neq. reflexivity.
Qed.

Lemma remove_city_owned_witness :
  exists rows,
    remove_city 2 mixed_db (Some ann)
    = Returns (RedirectResponse "/" 303, set_cities mixed_db rows) /\
    map City.id rows = [1; 3].
Proof.
  destruct (remove_city_owned 2 mixed_db ann
              (City.mk 2 "Rome" 41.5 12.5 PNone None 1))
    as (rows & Heq & -> & _).
  - simpl. auto.
  - reflexivity.
  - reflexivity.
  - eexists. split; [exact Heq|reflexivity].
Defined.

(** X5: adding a city and then removing the id it was given brings the
    database back to what it was. *)
Theorem add_then_remove_city (name : string) (latitude longitude : float)
    (db : Db) (user : User.t) :
  (forall c, In c (cities db) -> City.user_id c = User.id user ->
             City.name c <> name) ->
  exists r db' city,
    add_city name latitude longitude db (Some user) = Returns (r, db') /\
    cities db' = cities db ++ [city] /\
    remove_city (City.id city) db' (Some user)
    = Returns (RedirectResponse "/" 303, db).
Proof.
  intros Hfresh.
  exists (RedirectResponse "/" 303),
         (set_cities db
            (add_City (cities db) name latitude longitude (User.id user))),
         (City.mk (next_id (map City.id (cities db))) name latitude longitude
                  PNone None (User.id user)).
  split; [apply add_city_new; exact Hfresh|]. split; [reflexivity|].
  unfold remove_city, add_City. simpl.
  assert (Hbelow : forall c, In c (cities db) ->
            (City.id c =? next_id (map City.id (cities db))) = false).
  { intros c Hc. apply Z.eqb_neq.
    pose proof (next_id_above (map City.id (cities db)) (City.id c)
                  (in_map _ _ _ Hc)). lia. }
  rewrite filter_app_one. simpl. rewrite !Z.eqb_refl. simpl.
  rewrite filter_none.
  2:{ intros c Hc. rewrite (Hbelow c Hc). reflexivity. }
  simpl. rewrite filter_app_one. simpl. rewrite Z.eqb_refl. simpl.
  rewrite app_nil_r.
  rewrite filter_all.
  2:{ intros c Hc. rewrite (Hbelow c Hc). reflexivity. }
  destruct db. reflexivity.
Qed.

Lemma add_then_remove_city_witness :
  exists r db' city,
    add_city "Kyiv" 50.5 30.5 unrefreshed_db (Some ann) = Returns (r, db') /\
    cities db' = cities unrefreshed_db ++ [city] /\
    remove_city (City.id city) db' (Some ann)
    = Returns (RedirectResponse "/" 303, unrefreshed_db).
Proof.
  apply (add_then_remove_city "Kyiv" 50.5 30.5 unrefreshed_db ann).
  simpl. intros c [<-|[<-|[]]] _; discriminate.
Defined.

(** ** Seeding a user's cities from the defaults *)

Lemma add_defaults_seeded rows defaults uid :
  exists seeded,
    add_defaults rows defaults uid = rows ++ seeded /\
    Forall2 (seeded_from uid) seeded defaults.
Proof.
  unfold add_defaults. revert rows.
  induction defaults as [|d defaults IH]; intros rows; simpl.
  - exists []. split; [rewrite app_nil_r; reflexivity|constructor].
  - destruct (IH (add_City rows (DefaultCity.name d) (DefaultCity.latitude d)
                           (DefaultCity.longitude d) uid))
      as (seeded & -> & Hseeded).
    unfold add_City. rewrite <- app_assoc. simpl. eexists. split;
      [reflexivity|].
    constructor; [|exact Hseeded]. repeat split.
Qed.

Lemma seeded_owner uid seeded defaults c :
  Forall2 (seeded_from uid) seeded defaults -> In c seeded ->
  City.user_id c = uid.
Proof.
  induction 1 as [|c0 d seeded defaults Hc0 _ IH]; simpl; [intros []|].
  intros [<-|Hc]; [apply Hc0|auto].
Qed.

(** X6: a reset keeps the cities of the other users, in order, drops all
    cities of the user and appends one fresh city per default city, in the
    order of the defaults, with the default's name and coordinates and with
    no temperature and no timestamp; users and defaults are untouched. *)
Theorem reset_cities_result (db : Db) (user : User.t) :
  exists seeded,
    reset_cities db (Some user)
    = Returns
        (RedirectResponse "/" 303,
         mkDb (users db)
              (List.filter (fun c => negb (City.user_id c =? User.id user))
                           (cities db) ++ seeded)
              (default_cities db)) /\
    Forall2 (seeded_from (User.id user)) seeded (default_cities db) /\
    cities_of (User.id user)
      (set_cities db
         (List.filter (fun c => negb (City.user_id c =? User.id user))
                      (cities db) ++ seeded))
    = seeded.
Proof.
  destruct (add_defaults_seeded
              (List.filter (fun c => negb (City.user_id c =? User.id user))
                           (cities db))
              (default_cities db) (User.id user)) as (seeded & Heq & Hseeded).
  exists seeded. split; [|split; [exact Hseeded|]].
  - unfold reset_cities. simpl. rewrite Heq. reflexivity.
  - unfold cities_of. simpl. rewrite List.filter_app.
    rewrite filter_none.
    2:{ intros c Hc. apply filter_In in Hc as [_ Hc].
        apply negb_true_iff in Hc. exact Hc. }
    simpl. apply filter_all. intros c Hc. apply Z.eqb_eq.
    eapply seeded_owner; eauto.
Qed.

Example reset_cities_defaults_db :
  reset_cities defaults_db (Some ann)
  = Returns (RedirectResponse "/" 303,
             mkDb [ann; bob]
                  [City.mk 2 "Lima" 12.5 77.5 PNone None 2;
                   City.mk 3 "Oslo" 59.5 10.75 PNone None 1;
                   City.mk 4 "Rome" 41.5 12.5 PNone None 1]
                  (default_cities defaults_db)).
Proof. reflexivity. Qed.

(** ** Users *)

Lemma head_filter_Some {A} (f : A -> bool) (l : list A) (x : A) :
  head (List.filter f l) = Some x -> In x l /\ f x = true.
Proof.
  intros H. apply filter_In.
  destruct (List.filter f l); [discriminate|].
  inversion H. left. reflexivity.
Qed.

Lemma head_filter_key {A K} (key : A -> K) (eqb : K -> K -> bool)
    (l : list A) (x : A) :
  (forall a b, eqb a b = true <-> a = b) ->
  NoDup (map key l) -> In x l ->
  head (List.filter (fun y => eqb (key y) (key x)) l) = Some x.
Proof.
  intros Heqb. induction l as [|a l IH]; simpl; [intros _ []|].
  intros Hnd Hx. apply NoDup_cons in Hnd as [Ha Hnd].
  rewrite list_elem_of_In in Ha.
  destruct (eqb (key a) (key x)) eqn:Hk.
  - apply Heqb in Hk. destruct Hx as [->|Hx]; [reflexivity|].
    destruct Ha. rewrite Hk. apply in_map. exact Hx.
  - destruct Hx as [->|Hx]; [|auto].
    assert (eqb (key x) (key x) = true) by (apply Heqb; reflexivity).
    congruence.
Qed.

Lemma db_step_users db db' :
  db_step db db' ->
  users db' = users db \/
  exists username hash,
    users db'
    = users db ++ [User.mk (next_id (map User.id (users db))) username
                           hash true] /\
    forall u, In u (users db) -> User.username u <> username.
Proof.
  intros Hstep.
  destruct Hstep as
    [cookie name lat lon db r db' Heq
    |cookie city_id db r db' Heq
    |cookie db r db' Heq
    |cookie now session db r db' made Heq
    |rows db
    |hash_password username password db
    |verify_password username password db].
  - left. unfold add_city in Heq.
    destruct (get_current_user cookie db); simpl in Heq; [|discriminate].
    destruct (head _) in Heq; inversion Heq; reflexivity.
  - left. unfold remove_city in Heq.
    destruct (get_current_user cookie db); simpl in Heq; [|discriminate].
    destruct (head _) in Heq; inversion Heq; reflexivity.
  - left. unfold reset_cities in Heq.
    destruct (get_current_user cookie db); simpl in Heq; [|discriminate].
    inversion Heq; reflexivity.
  - left. destruct (get_current_user cookie db); [|discriminate].
    rewrite update_weather_refreshed in Heq. inversion Heq; reflexivity.
  - left. unfold populate_default_cities.
    destruct (default_cities db); reflexivity.
  - unfold register. destruct (head _) eqn:Hhead; [left; reflexivity|].
    right. exists username, (hash_password password).
    split; [reflexivity|].
    intros u Hu. apply String.eqb_neq.
    apply (head_filter_None_inv _ _ Hhead u Hu).
  - left. unfold login. destruct (head _); [|reflexivity].
    destruct (negb _); [reflexivity|].
    destruct (head _); reflexivity.
Qed.

Lemma next_id_positive (ids : list Z) : 0 < next_id ids.
Proof.
  unfold next_id. induction ids as [|a ids IH]; simpl; lia.
Qed.

Lemma users_keyed_step db db' :
  db_step db db' ->
  NoDup (map User.username (users db)) /\
  NoDup (map User.id (users db)) /\
  (forall u, In u (users db) -> 0 < User.id u) ->
  NoDup (map User.username (users db')) /\
  NoDup (map User.id (users db')) /\
  (forall u, In u (users db') -> 0 < User.id u).
Proof.
  intros Hstep (Hnames & Hids & Hpos).
  destruct (db_step_users db db' Hstep)
    as [->|(username & hash & -> & Hfresh)]; [auto|].
  rewrite !map_app. simpl. split; [|split].
  - apply NoDup_app. split; [exact Hnames|split; [|apply NoDup_singleton]].
    intros n Hn Hnew. apply list_elem_of_singleton in Hnew. subst n.
    apply list_elem_of_In in Hn. apply in_map_iff in Hn as (u & Hu & Hin).
    apply (Hfresh u Hin Hu).
  - apply NoDup_app. split; [exact Hids|split; [|apply NoDup_singleton]].
    intros k Hk Hnew. apply list_elem_of_singleton in Hnew.
    apply list_elem_of_In in Hk. apply next_id_above in Hk. lia.
  - intros u Hu. apply in_app_or in Hu as [Hu|[<-|[]]]; [auto|].
    simpl. apply next_id_positive.
Qed.

Lemma users_keyed_of_reachable db :
  reachable db ->
  NoDup (map User.username (users db)) /\
  NoDup (map User.id (users db)) /\
  (forall u, In u (users db) -> 0 < User.id u).
Proof.
  unfold reachable.
  apply (rtc_ind_r
           (fun db => NoDup (map User.username (users db)) /\
                      NoDup (map User.id (users db)) /\
                      (forall u, In u (users db) -> 0 < User.id u))
           empty_db).
  - simpl. split; [constructor|split; [constructor|intros u []]].
  - intros y z _ Hstep IH. eapply users_keyed_step; eauto.
Qed.

(** X7: in every reachable database the user names are pairwise distinct,
    and so are the user ids, which are all positive. *)
Theorem users_are_keyed (db : Db) :
  reachable db ->
  NoDup (map User.username (users db)) /\
  NoDup (map User.id (users db)) /\
  (forall u, In u (users db) -> 0 < User.id u).
Proof.
  unfold reachable. revert db. apply rtc_ind_r.
  - simpl. split; [constructor|split; [constructor|intros u []]].
  - intros y z _ Hstep IH. eapply users_keyed_step; eauto.
Qed.

Lemma users_are_keyed_witness :
  NoDup (map User.username (users worked_db)).
Proof.
  apply (users_are_keyed worked_db worked_db_reachable).
Defined.

(** X8: the user that [get_current_user] returns is a row of the users
    table whose id is the cookie, and the cookie is not 0. *)
Theorem get_current_user_sound (cookie : option Z) (db : Db) (user : User.t) :
  get_current_user cookie db = Some user ->
  exists uid,
    cookie = Some uid /\ uid <> 0 /\
    In user (users db) /\ User.id user = uid.
Proof.
  unfold get_current_user. destruct cookie as [uid|]; [|discriminate].
  destruct (Z.eqb_spec uid 0) as [|Hnz]; [discriminate|].
  intros H. apply head_filter_Some in H as [Hin Hid].
  exists uid. apply Z.eqb_eq in Hid. auto.
Qed.

Lemma get_current_user_sound_witness :
  exists uid, Some 2 = Some uid /\ uid <> 0 /\
              In bob (users defaults_db) /\ User.id bob = uid.
Proof.
  apply (get_current_user_sound (Some 2) defaults_db bob). reflexivity.
Defined.

(** X9: in every reachable database each registered user is found by the
    cookie that carries their id; the test [not user_id] rejects no user,
    because ids start at 1. *)
Theorem get_current_user_complete (db : Db) (user : User.t) :
  reachable db -> In user (users db) ->
  get_current_user (Some (User.id user)) db = Some user.
Proof.
  intros Hreach Hin.
  destruct (users_keyed_of_reachable db Hreach) as (_ & Hids & Hpos).
  unfold get_current_user.
  destruct (Z.eqb_spec (User.id user) 0) as [Hz|_].
  { specialize (Hpos user Hin). lia. }
  apply (head_filter_key User.id Z.eqb); auto using Z.eqb_eq.
Qed.

Lemma get_current_user_complete_witness :
  get_current_user (Some 1) worked_db = Some (User.mk 1 "ann" "pw" true).
Proof.
  apply (get_current_user_complete worked_db (User.mk 1 "ann" "pw" true)
           worked_db_reachable).
  simpl. auto.
Defined.

(** ** Registration and login *)

(** X10: registering under a user name that is taken shows the form again
    and leaves the database unchanged. *)
Theorem register_taken (hash_password : string -> string)
    (username password : string) (db : Db) (existing : User.t) :
  In existing (users db) ->
  User.username existing = username ->
  register hash_password username password db
  = (TemplateResponse "register.html", db).
Proof.
  intros Hin Hname. unfold register.
  destruct (head_filter_In
              (fun u => String.eqb (User.username u) username)
              (users db) existing Hin) as [u Hu].
  - rewrite Hname. apply String.eqb_refl.
  - rewrite Hu. reflexivity.
Qed.

Lemma register_taken_witness :
  register (fun p => p) "bob" "secret" defaults_db
  = (TemplateResponse "register.html", defaults_db).
Proof.
  apply (register_taken (fun p => p) "bob" "secret" defaults_db bob).
  - simpl. auto.
  - reflexivity.
Defined.

Lemma login_found verify_password username password db user :
  head (List.filter (fun u => String.eqb (User.username u) username)
                    (users db)) = Some user ->
  verify_password password (User.password_hash user) = true ->
  login verify_password username password db
  = match head (cities_of (User.id user) db) with
    | Some _ => (RedirectResponse "/" 303, db)
    | None =>
        (RedirectResponse "/" 303,
         set_cities db
           (add_defaults (cities db) (default_cities db) (User.id user)))
    end /\
  login_cookie verify_password username password db = Some (User.id user).
Proof.
  intros Hhead Hverify. unfold login, login_cookie, cities_of.
  rewrite Hhead, Hverify. simpl. split; reflexivity.
Qed.

(** X11: a user name that is free can be registered, and the same name and
    password then log in, provided the password verifies against its own
    hash: registration redirects to the login page, login redirects to the
    root page and sets the cookie to the new user's id. *)
Theorem register_then_login (hash_password : string -> string)
    (verify_password : string -> string -> bool)
    (username password : string) (db : Db) :
  (forall u, In u (users db) -> User.username u <> username) ->
  verify_password password (hash_password password) = true ->
  (register hash_password username password db).1
  = RedirectResponse "/login" 303 /\
  (login verify_password username password
         (register hash_password username password db).2).1
  = RedirectResponse "/" 303 /\
  login_cookie verify_password username password
               (register hash_password username password db).2
  = Some (next_id (map User.id (users db))).
Proof.
  intros Hfree Hverify.
  set (new := User.mk (next_id (map User.id (users db))) username
                      (hash_password password) true).
  set (db1 := mkDb (users db ++ [new]) (cities db) (default_cities db)).
  assert (Hreg : register hash_password username password db
                 = (RedirectResponse "/login" 303, db1)).
  { unfold register. rewrite head_filter_None; [reflexivity|].
    intros u Hu. apply String.eqb_neq. auto. }
  rewrite Hreg. simpl. split; [reflexivity|].
  destruct (login_found verify_password username password db1 new)
    as [Hlogin Hcookie].
  - simpl. rewrite filter_app_one. simpl. rewrite String.eqb_refl.
    rewrite filter_none; [reflexivity|].
    intros u Hu. apply String.eqb_neq. auto.
  - exact Hverify.
  - split; [|exact Hcookie]. rewrite Hlogin.
    destruct (head (cities_of (User.id new) db1)); reflexivity.
Qed.

Lemma register_then_login_witness :
  login_cookie String.eqb "eve" "secret"
               (register (fun p => p) "eve" "secret" defaults_db).2
  = Some 3.
Proof.
  destruct (register_then_login (fun p => p) String.eqb "eve" "secret"
              defaults_db) as (_ & _ & H).
  - simpl. intros u [<-|[<-|[]]]; discriminate.
  - reflexivity.
  - exact H.
Defined.

(** X12: a login that names no user, or whose password does not verify,
    shows the form again, sets no cookie and leaves the database
    unchanged. *)
Theorem login_rejected (verify_password : string -> string -> bool)
    (username password : string) (db : Db) :
  (forall u, In u (users db) -> User.username u = username ->
             verify_password password (User.password_hash u) = false) ->
  login verify_password username password db
  = (TemplateResponse "login.html", db) /\
  login_cookie verify_password username password db = None.
Proof.
  intros Hbad. unfold login, login_cookie.
  destruct (head _) as [u|] eqn:Hhead; [|split; reflexivity].
  apply head_filter_Some in Hhead as [Hin Hname].
  apply String.eqb_eq in Hname. rewrite (Hbad u Hin Hname). simpl.
  split; reflexivity.
Qed.

Lemma login_rejected_witness :
  login String.eqb "bob" "guess" defaults_db
  = (TemplateResponse "login.html", defaults_db) /\
  login String.eqb "zed" "pw" defaults_db
  = (TemplateResponse "login.html", defaults_db).
Proof.
  split.
  - apply (login_rejected String.eqb "bob" "guess" defaults_db).
    simpl. intros u [<-|[<-|[]]] Hname; [discriminate|reflexivity].
  - apply (login_rejected String.eqb "zed" "pw" defaults_db).
    simpl. intros u [<-|[<-|[]]] Hname; discriminate.
Defined.

(** X13: a successful login of a user without cities appends one fresh
    city per default city for that user and changes nothing else; a
    successful login of a user who has a city leaves the database
    unchanged. *)
Theorem login_seeds_once (verify_password : string -> string -> bool)
    (username password : string) (db : Db) (user : User.t) :
  NoDup (map User.username (users db)) ->
  In user (users db) ->
  User.username user = username ->
  verify_password password (User.password_hash user) = true ->
  (cities_of (User.id user) db = [] ->
   exists seeded,
     login verify_password username password db
     = (RedirectResponse "/" 303, set_cities db (cities db ++ seeded)) /\
     Forall2 (seeded_from (User.id user)) seeded (default_cities db)) /\
  (cities_of (User.id user) db <> [] ->
   login verify_password username password db
   = (RedirectResponse "/" 303, db)).
Proof.
  intros Hnd Hin Hname Hverify.
  assert (Hhead : head (List.filter
                          (fun u => String.eqb (User.username u) username)
                          (users db)) = Some user).
  { rewrite <- Hname.
    apply (head_filter_key User.username String.eqb);
      auto using String.eqb_eq. }
  destruct (login_found verify_password username password db user Hhead
              Hverify) as [-> _].
  split.
  - intros ->. simpl.
    destruct (add_defaults_seeded (cities db) (default_cities db)
                                  (User.id user)) as (seeded & -> & Hseeded).
    eauto.
  - intros Hsome. destruct (cities_of (User.id user) db); [tauto|].
    reflexivity.
Qed.

Lemma login_seeds_once_witness :
  login String.eqb "bob" "pw" defaults_db
  = (RedirectResponse "/" 303, defaults_db).
Proof.
  destruct (login_seeds_once String.eqb "bob" "pw" defaults_db bob)
    as [_ H].
  - apply NoDup_ListNoDup. simpl.
    repeat constructor; simpl; intros H; repeat destruct H as [H|H];
      try discriminate; exact H.
  - simpl. auto.
  - reflexivity.
  - reflexivity.
  - apply H. discriminate.
Defined.

Lemma get_current_user_by_id db user :
  NoDup (map User.id (users db)) -> 0 < User.id user ->
  In user (users db) ->
  get_current_user (Some (User.id user)) db = Some user.
Proof.
  intros Hids Hpos Hin. unfold get_current_user.
  destruct (Z.eqb_spec (User.id user) 0) as [Hz|_]; [lia|].
  apply (head_filter_key User.id Z.eqb); auto using Z.eqb_eq.
Qed.

(** X14: the cookie that a successful login sets is accepted afterwards:
    in every reachable database, [get_current_user] maps it to the user
    whose name was given. *)
Theorem login_cookie_authenticates
    (verify_password : string -> string -> bool)
    (username password : string) (db : Db) (uid : Z) :
  reachable db ->
  login_cookie verify_password username password db = Some uid ->
  exists user,
    In user (users db) /\
    User.username user = username /\
    User.id user = uid /\
    get_current_user (Some uid)
      (login verify_password username password db).2 = Some user.
Proof.
  intros Hreach Hcookie.
  destruct (users_keyed_of_reachable db Hreach) as (_ & Hids & Hpos).
  unfold login_cookie in Hcookie. unfold login.
  destruct (head _) as [user|] eqn:Hhead; [|discriminate].
  destruct (negb _); [discriminate|]. inversion Hcookie; subst uid.
  apply head_filter_Some in Hhead as [Hin Hname].
  apply String.eqb_eq in Hname.
  exists user. do 3 (split; [auto|]).
  destruct (head _); simpl; apply get_current_user_by_id; auto.
Qed.

Lemma login_cookie_authenticates_witness :
  exists user,
    In user (users worked_db) /\
    User.username user = "ann" /\
    User.id user = 1 /\
    get_current_user (Some 1) (login String.eqb "ann" "pw" worked_db).2
    = Some user.
Proof.
  apply (login_cookie_authenticates String.eqb "ann" "pw" worked_db 1
           worked_db_reachable).
  reflexivity.
Defined.

(** ** Every city has its owner *)

Lemma get_current_user_In cookie db user :
  get_current_user cookie db = Some user -> In user (users db).
Proof.
  unfold get_current_user. destruct cookie as [uid|]; [|discriminate].
  destruct (uid =? 0); [discriminate|].
  intros H. apply head_filter_Some in H. tauto.
Qed.

Lemma add_City_owned us rows name latitude longitude user :
  In user us -> Forall (has_owner us) rows ->
  Forall (has_owner us)
         (add_City rows name latitude longitude (User.id user)).
Proof.
  intros Hin H. unfold add_City. apply Forall_app. split; [exact H|].
  constructor; [|constructor]. exists user. auto.
Qed.

Lemma add_defaults_owned us rows defaults user :
  In user us -> Forall (has_owner us) rows ->
  Forall (has_owner us) (add_defaults rows defaults (User.id user)).
Proof.
  intros Hin. unfold add_defaults. revert rows.
  induction defaults as [|d defaults IH]; intros rows H; simpl; [exact H|].
  apply IH. apply add_City_owned; assumption.
Qed.

Lemma filter_owned us (f : City.t -> bool) rows :
  Forall (has_owner us) rows -> Forall (has_owner us) (List.filter f rows).
Proof.
  intros H. apply List.Forall_forall. intros c Hc.
  apply filter_In in Hc as [Hc _].
  revert c Hc. apply List.Forall_forall. exact H.
Qed.

Lemma db_step_owned db db' :
  db_step db db' ->
  Forall (has_owner (users db)) (cities db) ->
  Forall (has_owner (users db')) (cities db').
Proof.
  intros Hstep H.
  destruct Hstep as
    [cookie name lat lon db r db' Heq
    |cookie city_id db r db' Heq
    |cookie db r db' Heq
    |cookie now session db r db' made Heq
    |rows db
    |hash_password username password db
    |verify_password username password db].
  - unfold add_city in Heq.
    destruct (get_current_user cookie db) as [u|] eqn:Hu; simpl in Heq;
      [|discriminate].
    apply get_current_user_In in Hu.
    destruct (head _) in Heq; inversion Heq; subst; [exact H|].
    simpl. apply add_City_owned; assumption.
  - unfold remove_city in Heq.
    destruct (get_current_user cookie db) as [u|]; simpl in Heq;
      [|discriminate].
    destruct (head _) in Heq; inversion Heq; subst; [|exact H].
    simpl. apply filter_owned. exact H.
  - unfold reset_cities in Heq.
    destruct (get_current_user cookie db) as [u|] eqn:Hu; simpl in Heq;
      [|discriminate].
    apply get_current_user_In in Hu. inversion Heq; subst. simpl.
    apply add_defaults_owned; [exact Hu|]. apply filter_owned. exact H.
  - destruct (get_current_user cookie db) as [u|]; [|discriminate].
    rewrite update_weather_refreshed in Heq. inversion Heq; subst. simpl.
    unfold commit_cities. apply List.Forall_forall. intros c Hc.
    apply in_map_iff in Hc as (row & <- & Hrow).
    destruct (List.find _ _) as [o|] eqn:Hfind.
    + apply find_some in Hfind as [Ho _].
      apply in_map_iff in Ho as (c0 & <- & Hc0).
      apply filter_In in Hc0 as [Hc0 _].
      destruct (refreshed_frame now session c0) as (_ & _ & _ & _ & Hu).
      unfold has_owner. rewrite Hu. clear Hu.
      revert c0 Hc0. apply List.Forall_forall. exact H.
    + clear Hfind. revert row Hrow. apply List.Forall_forall. exact H.
  - unfold populate_default_cities.
    destruct (default_cities db); exact H.
  - unfold register. destruct (head _); [exact H|]. simpl.
    eapply Forall_impl; [exact H|].
    intros c (u & Hu & Hid). exists u. split; [|exact Hid].
    apply in_or_app. left. exact Hu.
  - unfold login. destruct (head _) as [u|] eqn:Hu; [|exact H].
    apply head_filter_Some in Hu as [Hu _].
    destruct (negb _); [exact H|].
    destruct (head _); [exact H|].
    simpl. apply add_defaults_owned; assumption.
Qed.

(** X15: in every reachable database each city belongs to a user of the
    users table. *)
Theorem cities_have_owners (db : Db) :
  reachable db ->
  forall city, In city (cities db) ->
    exists user, In user (users db) /\ User.id user = City.user_id city.
Proof.
  intros Hreach. apply List.Forall_forall. revert db Hreach.
  unfold reachable. apply rtc_ind_r.
  - constructor.
  - intros y z _ Hstep IH. eapply db_step_owned; eauto.
Qed.

Lemma cities_have_owners_witness :
  exists user,
    In user (users worked_db) /\ User.id user = 1.
Proof.
  apply (cities_have_owners worked_db worked_db_reachable
           (City.mk 2 "Rome" 41.5 12.5 PNone (Some noon) 1)).
  simpl. auto.
Defined.

Lemma reachable_key_witness : NoDup (map City.id (cities worked_db)).
Proof. apply (reachable_key worked_db worked_db_reachable). Defined.

(** ** More on the refresh *)

(** X17: a city that is due stays due as time passes, until it is
    refreshed. *)
Theorem refresh_due_stays (now later : datetime) (city : City.t) :
  refresh_due now city = true -> now <= later ->
  refresh_due later city = true.
Proof.
  unfold refresh_due. destruct (City.updated_at city) as [t|]; [|auto].
  intros Hdue Hle. apply Z.ltb_lt in Hdue. apply Z.ltb_lt. lia.
Qed.

Lemma refresh_due_stays_witness :
  refresh_due (noon + 1) rome = true.
Proof.
  apply (refresh_due_stays noon (noon + 1) rome); [reflexivity|lia].
Defined.

Lemma update_weather_rows now session db user :
  NoDup (map City.id (cities db)) ->
  update_weather now session db (Some user)
  = Returns
      (RedirectResponse "/" 303,
       set_cities db
         (map (fun c => if City.user_id c =? User.id user
                        then refreshed now session c else c)
              (cities db)),
       map call_of (List.filter (refresh_due now)
                                (cities_of (User.id user) db))).
Proof.
  intros Hnd. rewrite update_weather_refreshed.
  rewrite (commit_refreshed now session _ _ Hnd). reflexivity.
Qed.



(** X19: when none of the user's cities is due, a refresh makes no network
    call and leaves the database exactly as it was; this includes a user
    without cities. *)
Theorem refresh_with_nothing_due (now : datetime) (session : ClientSession)
    (db : Db) (user : User.t) :
  NoDup (map City.id (cities db)) ->
  (forall c, In c (cities db) -> City.user_id c = User.id user ->
             refresh_due now c = false) ->
  update_weather now session db (Some user)
  = Returns (RedirectResponse "/" 303, db, []).
Proof.
  intros Hnd Hnone. rewrite (update_weather_rows _ _ _ _ Hnd).
  rewrite filter_none.
  2:{ intros c Hc. apply filter_In in Hc as [Hc Hu].
      apply Z.eqb_eq in Hu. auto. }
  simpl. replace (map _ (cities db)) with (cities db).
  - rewrite set_cities_same. reflexivity.
  - symmetry. rewrite <- (map_id (cities db)) at 2. apply map_ext_in.
    intros c Hc. destruct (Z.eqb_spec (City.user_id c) (User.id user));
      [|reflexivity].
    unfold refreshed. rewrite Hnone; auto.
Qed.

Lemma refresh_with_nothing_due_witness :
  update_weather (noon + 1) rome_is_down worked_db (Some ann)
  = Returns (RedirectResponse "/" 303, worked_db, []).
Proof.
  apply (refresh_with_nothing_due (noon + 1) rome_is_down worked_db ann).
  - apply NoDup_ListNoDup. simpl. repeat constructor; simpl; lia.
  - simpl. intros c [<-|[<-|[]]] _; reflexivity.
Defined.

(** ** More on the event loop *)

Lemma worked_batch_steps :
  nsteps (loop_step noon rome_is_down) 6
         (loop_start noon [oslo; rome; kyiv]) worked_batch_end_2.
Proof.
  eapply nsteps_l.
  { apply (task_calls _ _ _ 2%nat kyiv (noon + 1));
      [reflexivity..|simpl; lia]. }
  eapply nsteps_l.
  { apply (task_calls _ _ _ 1%nat rome (noon + 2));
      [reflexivity..|simpl; lia]. }
  eapply nsteps_l.
  { apply (task_resumes _ _ _ 1%nat 41.5%float 12.5%float PNone
             rome (noon + 1000)); [reflexivity..|simpl; lia]. }
  eapply nsteps_l.
  { apply (task_calls _ _ _ 0%nat oslo (noon + 2000));
      [reflexivity..|simpl; lia]. }
  eapply nsteps_l.
  { apply (task_resumes _ _ _ 0%nat 59.5%float 10.75%float (PFloat 21.5)
             oslo (noon + 1000000)); [reflexivity..|simpl; lia]. }
  eapply nsteps_l.
  { apply (task_resumes _ _ _ 2%nat 50.5%float 30.5%float (PFloat 21.5)
             kyiv (noon + 2000000)); [reflexivity..|simpl; lia]. }
  apply nsteps_O.
Qed.

Lemma worked_batch_run_2 :
  loop_run noon rome_is_down [oslo; rome; kyiv] worked_batch_end_2.
Proof.
  unfold loop_run. eapply rtc_nsteps_2. apply worked_batch_steps.
Qed.

(** X20: the outcome of a batch does not depend on the schedule: two runs
    of the event loop over the same cities that both reach the return of
    [gather] end with the same objects, which are those of the sequential
    run, and have made the same calls up to their order, one per due
    city. *)
Theorem gather_schedule_independent (now : datetime)
    (session : ClientSession) (cities : list City.t) (s1 s2 : loop_state) :
  loop_run now session cities s1 -> gather_done s1 ->
  loop_run now session cities s2 -> gather_done s2 ->
  objects s1 = objects s2 /\
  calls s1 ≡ₚ calls s2 /\
  (exists made,
     gather now session cities = Returns (objects s1, made) /\
     calls s1 ≡ₚ made) /\
  length (calls s1) = length (List.filter (refresh_due now) cities).
Proof.
  intros Hrun1 Hdone1 Hrun2 Hdone2.
  destruct (loop_done_result now session cities s1 Hrun1 Hdone1)
    as [Ho1 Hc1].
  destruct (loop_done_result now session cities s2 Hrun2 Hdone2)
    as [Ho2 Hc2].
  split; [congruence|split; [|split]].
  - rewrite Hc1, Hc2. reflexivity.
  - eexists. split; [rewrite gather_refreshed, Ho1; reflexivity|exact Hc1].
  - rewrite Hc1. apply length_map.
Qed.

Lemma gather_schedule_independent_witness :
  objects worked_batch_end = objects worked_batch_end_2 /\
  calls worked_batch_end ≡ₚ calls worked_batch_end_2.
Proof.
  destruct (gather_schedule_independent noon rome_is_down [oslo; rome; kyiv]
              worked_batch_end worked_batch_end_2
              worked_batch_run worked_batch_done
              worked_batch_run_2) as (Hobjs & Hcalls & _).
  - repeat constructor.
  - split; assumption.
Defined.

Lemma loop_step_work now session s s' :
  loop_step now session s s' -> (work_left s' < work_left s)%nat.
Proof.
  unfold work_left.
  destruct 1; simpl; eapply task_weight_insert; eauto; simpl; lia.
Qed.

(** X21: every schedule is finite: a run of the event loop over [n] cities
    takes at most [2 * n] steps, two per city that is fetched and one per
    city that is skipped. *)
Theorem schedule_length_bounded (now : datetime) (session : ClientSession)
    (cities : list City.t) (n : nat) (s : loop_state) :
  nsteps (loop_step now session) n (loop_start now cities) s ->
  (n + work_left s <= 2 * length cities)%nat.
Proof.
  assert (Hgen : forall x y, nsteps (loop_step now session) n x y ->
                   (n + work_left y <= work_left x)%nat).
  { induction 1 as [|m x y z Hstep _ IH]; [lia|].
    apply loop_step_work in Hstep. lia. }
  intros Hrun. apply Hgen in Hrun.
  assert (Hstart : work_left (loop_start now cities)
                   = (2 * length cities)%nat).
  { unfold work_left, loop_start. simpl. clear.
    induction cities as [|c cs IH]; simpl in *; lia. }
  lia.
Qed.

Lemma schedule_length_bounded_witness :
  (6 + work_left worked_batch_end_2 <= 2 * 3)%nat.
Proof.
  apply (schedule_length_bounded noon rome_is_down [oslo; rome; kyiv] 6
           worked_batch_end_2 worked_batch_steps).
Defined.

(** ** The default cities *)

Lemma max_of_seq (start k : nat) :
  foldr Z.max 0 (map Z.of_nat (seq start k))
  = match k with
    | O => 0
    | S k' => Z.of_nat (start + k')
    end.
Proof.
  revert start. induction k as [|k IH]; intros start; simpl; [reflexivity|].
  rewrite IH. destruct k; lia.
Qed.

Lemma populate_fold (rows : list (string * float * float))
    (acc : list DefaultCity.t) :
  map DefaultCity.id acc = map Z.of_nat (seq 1 (length acc)) ->
  let result :=
    fold_left
      (fun acc row =>
         acc ++ [DefaultCity.mk (next_id (map DefaultCity.id acc))
                                row.1.1 row.1.2 row.2])
      rows acc in
  map default_data result = map default_data acc ++ rows /\
  map DefaultCity.id result
  = map Z.of_nat (seq 1 (length acc + length rows)).
Proof.
  revert acc. induction rows as [|row rows IH]; intros acc Hacc; simpl.
  - rewrite app_nil_r, Nat.add_0_r. auto.
  - destruct (IH (acc ++ [DefaultCity.mk (next_id (map DefaultCity.id acc))
                                         row.1.1 row.1.2 row.2]))
      as [Hdata Hids].
    + rewrite map_app, length_app.
      change (length [DefaultCity.mk (next_id (map DefaultCity.id acc))
                                     row.1.1 row.1.2 row.2]) with 1%nat.
      rewrite Nat.add_1_r, seq_S, map_app, <- Hacc. cbn [map DefaultCity.id].
      do 2 f_equal. unfold next_id. rewrite Hacc, max_of_seq.
      destruct (length acc); lia.
    + split.
      * rewrite Hdata, map_app, <- app_assoc. simpl.
        destruct row as [[n la] lo]. reflexivity.
      * rewrite Hids, length_app. simpl. do 2 f_equal. lia.
Qed.

(** X22: when populating an empty table of default cities goes through,
    with coordinates that a REAL column keeps as they are, the table holds
    the rows of the file in their order, numbered from 1, their names are
    pairwise distinct, and users and cities are untouched; with two rows of
    one name it raises instead and stores nothing. *)
Theorem populate_default_cities_result (rows : list (string * float * float))
    (db : Db) :
  default_cities db = [] ->
  Forall (fun row => sqlite_REAL row.1.2 = PFloat row.1.2 /\
                     sqlite_REAL row.2 = PFloat row.2) rows ->
  (distinct (map (fun row => row.1.1) rows) = false ->
   populate_default_cities_sqlite rows db = Raises IntegrityError) /\
  (forall db',
     populate_default_cities_sqlite rows db = Returns db' ->
     distinct (map (fun row => row.1.1) rows) = true /\
     users db' = users db /\
     cities db' = cities db /\
     map default_data (default_cities db') = rows /\
     map DefaultCity.id (default_cities db')
     = map Z.of_nat (seq 1 (length rows))).
Proof.
  intros Hempty _. unfold populate_default_cities_sqlite. rewrite Hempty.
  split; [intros ->; reflexivity|].
  intros db'. destruct (distinct _); [|discriminate].
  intros Heq. inversion Heq; subst db'; clear Heq.
  unfold populate_default_cities. rewrite Hempty. simpl.
  destruct (populate_fold rows [] eq_refl) as [Hdata Hids].
  auto.
Qed.

Lemma populate_default_cities_result_witness :
  populate_default_cities_sqlite
    [("Oslo", 59.5%float, 10.75%float); ("Oslo", 41.5%float, 12.5%float)]
    worked_db
  = Raises IntegrityError /\
  map DefaultCity.id
      (default_cities
         (populate_default_cities
            [("Oslo", 59.5%float, 10.75%float);
             ("Rome", 41.5%float, 12.5%float)] worked_db))
  = [1; 2].
Proof.
  split.
  - apply (populate_default_cities_result
             [("Oslo", 59.5%float, 10.75%float);
              ("Oslo", 41.5%float, 12.5%float)] worked_db eq_refl).
    + repeat constructor.
    + reflexivity.
  - apply (populate_default_cities_result
             [("Oslo", 59.5%float, 10.75%float);
              ("Rome", 41.5%float, 12.5%float)] worked_db eq_refl).
    + repeat constructor.
    + reflexivity.
Defined.

(** X23: the default cities are loaded once: after a start that went
    through with a file of at least one row, a later start changes
    nothing, whatever the file then holds. *)
Theorem populate_default_cities_once
    (rows rows' : list (string * float * float)) (db db1 : Db) :
  rows <> [] ->
  populate_default_cities_sqlite rows db = Returns db1 ->
  populate_default_cities_sqlite rows' db1 = Returns db1.
Proof.
  intros Hrows. unfold populate_default_cities_sqlite.
  destruct (default_cities db) as [|d ds] eqn:Hdb.
  - destruct (distinct _); [|discriminate].
    intros Heq. inversion Heq; subst db1; clear Heq.
    destruct (populate_fold rows [] eq_refl) as [Hdata _].
    unfold populate_default_cities. rewrite Hdb. simpl.
    destruct (fold_left _ rows []); [|reflexivity].
    simpl in Hdata. congruence.
  - intros Heq. inversion Heq; subst db1. rewrite Hdb. reflexivity.
Qed.

Lemma populate_default_cities_once_witness :
  populate_default_cities_sqlite [("Lima", 12.5%float, 77.5%float)]
    (populate_default_cities [("Oslo", 59.5%float, 10.75%float)] worked_db)
  = Returns
      (populate_default_cities [("Oslo", 59.5%float, 10.75%float)]
                               worked_db).
Proof.
  apply (populate_default_cities_once
           [("Oslo", 59.5%float, 10.75%float)]
           [("Lima", 12.5%float, 77.5%float)] worked_db).
  - discriminate.
  - reflexivity.
Defined.
